(** * bottom-sheet: the [SheetElement] custom element

    A shallow embedding of [library/sheet.jsx]: the open/close life cycle,
    the dismissal triggers (background click, close button, Escape key),
    the drag gesture and the mount/unmount wiring of the window listeners.

    Conventions of the embedding.
    - A JavaScript number is an exact rational extended with [Infinity],
      [-Infinity] and [NaN]: division by zero, comparisons with [NaN] and
      the behaviour of [Math.min]/[Math.max] on [NaN] follow the language;
      the rounding of IEEE doubles and the sign of zero are not modelled.
    - The element's attributes are a finite map from names to strings.
    - Every call of [dispatchEvent(new CustomEvent(t))] appends [t] to a
      log kept in the state, oldest entry first.
    - The functions imported from [helpers.js] are not part of the
      sources at hand; each is introduced below where it is first used. *)

From Stdlib Require Import QArith Qcanon Lqa.
From stdpp Require Import base option list strings gmap.

(* ===================================================================== *)
(** ** JavaScript numbers *)
(* ===================================================================== *)

Module JSNumber.

Inductive number : Type :=
| Fin (q : Qc)
| PosInf
| NegInf
| NaN.

Definition ofZ (z : Z) : number := Fin (Q2Qc (inject_Z z)).
Definition ofQ (q : Q) : number := Fin (Q2Qc q).

(** Sign tests on the canonical representative. *)
Definition Qc_is_zero (q : Qc) : bool := (Qnum q =? 0)%Z.
Definition Qc_is_neg (q : Qc) : bool := (Qnum q <? 0)%Z.
Definition Qc_ltb (a b : Qc) : bool :=
  (Qnum a * Zpos (Qden b) <? Qnum b * Zpos (Qden a))%Z.

Definition neg (a : number) : number :=
  match a with
  | Fin q => Fin (- q)%Qc
  | PosInf => NegInf
  | NegInf => PosInf
  | NaN => NaN
  end.

(** [a + b] *)
Definition add (a b : number) : number :=
  match a, b with
  | NaN, _ | _, NaN => NaN
  | Fin x, Fin y => Fin (x + y)%Qc
  | PosInf, NegInf | NegInf, PosInf => NaN
  | PosInf, _ | _, PosInf => PosInf
  | NegInf, _ | _, NegInf => NegInf
  end.

(** [a - b] *)
Definition sub (a b : number) : number := add a (neg b).

(** The infinity with the sign of [q] when [positive] holds, and the
    opposite one otherwise. *)
Definition signedInf (positive : bool) : number :=
  if positive then PosInf else NegInf.

(** [a * b] *)
Definition mul (a b : number) : number :=
  match a, b with
  | NaN, _ | _, NaN => NaN
  | Fin x, Fin y => Fin (x * y)%Qc
  | Fin x, PosInf | PosInf, Fin x =>
      if Qc_is_zero x then NaN else signedInf (negb (Qc_is_neg x))
  | Fin x, NegInf | NegInf, Fin x =>
      if Qc_is_zero x then NaN else signedInf (Qc_is_neg x)
  | PosInf, PosInf | NegInf, NegInf => PosInf
  | PosInf, NegInf | NegInf, PosInf => NegInf
  end.

(** [a / b]; a zero divisor counts as [+0]. *)
Definition div (a b : number) : number :=
  match a, b with
  | NaN, _ | _, NaN => NaN
  | Fin x, Fin y =>
      if Qc_is_zero y
      then (if Qc_is_zero x then NaN else signedInf (negb (Qc_is_neg x)))
      else Fin (x / y)%Qc
  | Fin _, (PosInf | NegInf) => Fin 0%Qc
  | PosInf, Fin y => signedInf (negb (Qc_is_neg y))
  | NegInf, Fin y => signedInf (Qc_is_neg y)
  | (PosInf | NegInf), (PosInf | NegInf) => NaN
  end.

(** [a < b] *)
Definition ltb (a b : number) : bool :=
  match a, b with
  | NaN, _ | _, NaN => false
  | Fin x, Fin y => Qc_ltb x y
  | NegInf, NegInf => false
  | NegInf, _ => true
  | _, NegInf => false
  | PosInf, _ => false
  | Fin _, PosInf => true
  end.

(** [a <= b] *)
Definition leb (a b : number) : bool :=
  match a, b with
  | NaN, _ | _, NaN => false
  | Fin x, Fin y => negb (Qc_ltb y x)
  | NegInf, _ => true
  | _, PosInf => true
  | _, NegInf => false
  | PosInf, _ => false
  end.

(** [Math.min(a, b)] and [Math.max(a, b)]: [NaN] as soon as one
    argument is [NaN]. *)
Definition min (a b : number) : number :=
  match a, b with
  | NaN, _ | _, NaN => NaN
  | _, _ => if ltb b a then b else a
  end.

Definition max (a b : number) : number :=
  match a, b with
  | NaN, _ | _, NaN => NaN
  | _, _ => if ltb a b then b else a
  end.

Definition isNaN (a : number) : bool :=
  match a with NaN => true | _ => false end.

Definition isZero (a : number) : bool :=
  match a with Fin q => Qc_is_zero q | _ => false end.

End JSNumber.

Import JSNumber.

Declare Scope js_scope.
Delimit Scope js_scope with js.
Bind Scope js_scope with number.
Infix "+" := add : js_scope.
Infix "-" := sub : js_scope.
Infix "*" := mul : js_scope.
Infix "/" := div : js_scope.
Infix "<?" := ltb : js_scope.
Infix "<=?" := leb : js_scope.

Module Math.
Definition min := JSNumber.min.
Definition max := JSNumber.max.
End Math.

(** Equations between closed numbers: evaluate both sides, then compare
    the canonical rationals. *)
Ltac number_eq :=
  vm_compute;
  first [ reflexivity
        | apply (f_equal Fin), Qc_is_canon; reflexivity ].

Ltac number_pair_eq :=
  vm_compute;
  first [ reflexivity
        | apply f_equal2; apply (f_equal Fin), Qc_is_canon; reflexivity ].

(** The value of a possibly [undefined] field in an arithmetic
    expression: [undefined] converts to [NaN]. *)
Definition ToNumber (x : option number) : number := default NaN x.

(* ===================================================================== *)
(** ** JavaScript values *)
(* ===================================================================== *)

(** The values an author can assign to a property.  [VObject] stands for
    any object reference (symbols and big integers are left out). *)
Inductive value : Type :=
| VUndefined
| VNull
| VBool (b : bool)
| VNumber (n : number)
| VString (s : string)
| VObject (ref : nat).

(** [Boolean(value)], the language's truthiness. *)
Definition Boolean (v : value) : bool :=
  match v with
  | VUndefined | VNull => false
  | VBool b => b
  | VNumber n => negb (isZero n || isNaN n)
  | VString s => negb (bool_decide (s = ""))
  | VObject _ => true
  end.

(** [v === w] for the two comparisons the element makes. *)
Definition strictly_false (v : value) : bool :=
  match v with VBool false => true | _ => false end.

Definition strictly_undefined (v : value) : bool :=
  match v with VUndefined => true | _ => false end.

(* ===================================================================== *)
(** ** Exceptions *)
(* ===================================================================== *)

Inductive exception : Type :=
| TypeError.

Inductive result (A : Type) : Type :=
| Ok (a : A)
| Throw (e : exception).

Arguments Ok {A} a.
Arguments Throw {A} e.

(* ===================================================================== *)
(** ** The document *)
(* ===================================================================== *)

(** The nodes that events travel through: the custom element itself
    ([Host]), its shadow root with the tree that the constructor appends
    to it, and any other event target ([Other]: slotted content, ancestors of
    the host, the document, the window). *)
Inductive Node : Type :=
| Host
| SheetContents       (* div.sheet-contents, kept in #sheet *)
| SheetControls       (* header.sheet-controls *)
| DraggableArea       (* div.sheet-draggable-area, kept in #draggableArea *)
| DraggableThumb      (* div.sheet-draggable-thumb *)
| CloseButton         (* button.sheet-close-button *)
| SheetBody           (* main.sheet-body *)
| Slot
| ShadowRoot
| Other (n : nat).

Global Instance Node_eq_dec : EqDecision Node.
Proof. solve_decision. Defined.

Record Point : Type := { pageY : number }.

(** An event as the handlers see it.  [pointer] holds the coordinates
    that [touchPosition] finds in a mouse or touch event; it is [None]
    for an event without coordinates, whose [pageY] is [undefined]. *)
Record Event : Type := {
  key : string;
  target : Node;
  composedPath : list Node;
  pointer : option Point
}.

(** What a handler reads from the page besides the event. *)
Record Env : Type := {
  (** [this.#sheet.clientHeight], a non-negative integer *)
  clientHeight : N;
  (** the custom properties of [#sheet], by name, each as the number that
      the unary plus makes of its text *)
  cssVariable : string → number;
  (** [document.activeElement], [None] when nothing has the focus *)
  activeElement : option Node;
  (** [contains a d]: [d] is [a] or a descendant of [a] *)
  contains : Node → Node → bool
}.

(** *** The functions of [helpers.js] *)

(** Modelled from the spec: [touchPosition] of helpers.js, which
    "normalizes pointer vs. touch event shapes" and returns the position
    that carries [pageY]; [None] stands for a position without
    coordinates. *)
Definition touchPosition (event : Event) : option Point := pointer event.

(** [touchPosition(event).pageY]; [None] is [undefined]. *)
Definition pageYOf (event : Event) : option number :=
  pageY <$> touchPosition event.

(** Modelled from the spec: [mapNumber] of helpers.js, the "linear
    interpolation" of [value] from the range [from] to the range [to]. *)
Definition mapNumber (v : number) (from to : number * number) : number :=
  (to.1 + (v - from.1) / (from.2 - from.1) * (to.2 - to.1))%js.

(** Modelled from the spec: [getCSSVariableValue] of helpers.js, the
    value of the custom property [name] on the element; the only caller
    reads it on [#sheet] and converts it with the unary plus, and the
    model returns the converted number. *)
Definition getCSSVariableValue (env : Env) (name : string) : number :=
  cssVariable env name.

(** Modelled from the spec: [isFocused] of helpers.js, whether the
    element is the one that has the focus. *)
Definition isFocused (env : Env) (element : Node) : bool :=
  bool_decide (activeElement env = Some element).

(** Modelled from the spec: [elementContains] of helpers.js, whether
    [descendantCandidate] lies inside [ancestor]. *)
Definition elementContains (env : Env) (descendantCandidate ancestor : Node) : bool :=
  contains env ancestor descendantCandidate.

(* ===================================================================== *)
(** ** The state of a sheet *)
(* ===================================================================== *)

(** The six entries of the [#eventListeners] table: each is created once,
    with [this] bound, and the same reference is used to subscribe and to
    unsubscribe. *)
Inductive BoundListener : Type :=
| BoundOnDragMove
| BoundOnDragStart
| BoundOnDragEnd
| BoundOnKeyUp
| BoundOnCloseButtonClick
| BoundOnClick.

(** A callback registered on the window: one of this element's bound
    listeners, or a function that belongs to other code. *)
Inductive Callback : Type :=
| Own (l : BoundListener)
| Foreign (id : nat).

Global Instance BoundListener_eq_dec : EqDecision BoundListener.
Proof. solve_decision. Defined.

Global Instance Callback_eq_dec : EqDecision Callback.
Proof. solve_decision. Defined.

(** The values written to [#sheet.style.transform]: the empty string, or
    the string [translateY(t%) scale(s)] built during a drag. *)
Inductive Transform : Type :=
| TransformNone
| TransformDrag (translateY scale : number).

Record SheetElement : Type := {
  (** the attributes of the custom element *)
  attributes : gmap string string;
  (** the types of the custom events dispatched on it so far *)
  dispatched : list string;
  (** [#dragPosition]; [None] is [undefined] *)
  dragPosition : option number;
  (** [#scaleDownTo]; [None] is [undefined] *)
  scaleDownTo : option number;
  (** [#sheet.classList] *)
  sheetClassList : gset string;
  (** [#sheet.style.transform] and [#sheet.style.transition] *)
  sheetTransform : Transform;
  sheetTransition : string;
  (** [#draggableArea.style.cursor] *)
  draggableAreaCursor : string;
  (** [document.body.style.cursor] *)
  bodyCursor : string;
  (** the event listener list of the window, in order of registration *)
  windowListeners : list (string * Callback)
}.

Section Updates.
Variable s : SheetElement.

Definition with_attributes (x : gmap string string) : SheetElement :=
  {| attributes := x; dispatched := dispatched s;
     dragPosition := dragPosition s; scaleDownTo := scaleDownTo s;
     sheetClassList := sheetClassList s; sheetTransform := sheetTransform s;
     sheetTransition := sheetTransition s;
     draggableAreaCursor := draggableAreaCursor s; bodyCursor := bodyCursor s;
     windowListeners := windowListeners s |}.

Definition with_dispatched (x : list string) : SheetElement :=
  {| attributes := attributes s; dispatched := x;
     dragPosition := dragPosition s; scaleDownTo := scaleDownTo s;
     sheetClassList := sheetClassList s; sheetTransform := sheetTransform s;
     sheetTransition := sheetTransition s;
     draggableAreaCursor := draggableAreaCursor s; bodyCursor := bodyCursor s;
     windowListeners := windowListeners s |}.

Definition with_dragPosition (x : option number) : SheetElement :=
  {| attributes := attributes s; dispatched := dispatched s;
     dragPosition := x; scaleDownTo := scaleDownTo s;
     sheetClassList := sheetClassList s; sheetTransform := sheetTransform s;
     sheetTransition := sheetTransition s;
     draggableAreaCursor := draggableAreaCursor s; bodyCursor := bodyCursor s;
     windowListeners := windowListeners s |}.

Definition with_scaleDownTo (x : option number) : SheetElement :=
  {| attributes := attributes s; dispatched := dispatched s;
     dragPosition := dragPosition s; scaleDownTo := x;
     sheetClassList := sheetClassList s; sheetTransform := sheetTransform s;
     sheetTransition := sheetTransition s;
     draggableAreaCursor := draggableAreaCursor s; bodyCursor := bodyCursor s;
     windowListeners := windowListeners s |}.

Definition with_sheetClassList (x : gset string) : SheetElement :=
  {| attributes := attributes s; dispatched := dispatched s;
     dragPosition := dragPosition s; scaleDownTo := scaleDownTo s;
     sheetClassList := x; sheetTransform := sheetTransform s;
     sheetTransition := sheetTransition s;
     draggableAreaCursor := draggableAreaCursor s; bodyCursor := bodyCursor s;
     windowListeners := windowListeners s |}.

Definition with_sheetStyle (t : Transform) (tr : string) : SheetElement :=
  {| attributes := attributes s; dispatched := dispatched s;
     dragPosition := dragPosition s; scaleDownTo := scaleDownTo s;
     sheetClassList := sheetClassList s; sheetTransform := t;
     sheetTransition := tr;
     draggableAreaCursor := draggableAreaCursor s; bodyCursor := bodyCursor s;
     windowListeners := windowListeners s |}.

Definition with_cursors (c : string) : SheetElement :=
  {| attributes := attributes s; dispatched := dispatched s;
     dragPosition := dragPosition s; scaleDownTo := scaleDownTo s;
     sheetClassList := sheetClassList s; sheetTransform := sheetTransform s;
     sheetTransition := sheetTransition s;
     draggableAreaCursor := c; bodyCursor := c;
     windowListeners := windowListeners s |}.

Definition with_bodyCursor (c : string) : SheetElement :=
  {| attributes := attributes s; dispatched := dispatched s;
     dragPosition := dragPosition s; scaleDownTo := scaleDownTo s;
     sheetClassList := sheetClassList s; sheetTransform := sheetTransform s;
     sheetTransition := sheetTransition s;
     draggableAreaCursor := draggableAreaCursor s; bodyCursor := c;
     windowListeners := windowListeners s |}.

Definition with_windowListeners (x : list (string * Callback)) : SheetElement :=
  {| attributes := attributes s; dispatched := dispatched s;
     dragPosition := dragPosition s; scaleDownTo := scaleDownTo s;
     sheetClassList := sheetClassList s; sheetTransform := sheetTransform s;
     sheetTransition := sheetTransition s;
     draggableAreaCursor := draggableAreaCursor s; bodyCursor := bodyCursor s;
     windowListeners := x |}.
End Updates.

(** *** The DOM operations the element calls on itself *)

Definition hasAttribute (name : string) (s : SheetElement) : bool :=
  bool_decide (is_Some (attributes s !! name)).

Definition setAttribute (name v : string) (s : SheetElement) : SheetElement :=
  with_attributes s (<[name := v]> (attributes s)).

Definition removeAttribute (name : string) (s : SheetElement) : SheetElement :=
  with_attributes s (delete name (attributes s)).

(** [this.dispatchEvent(new CustomEvent(type))] *)
Definition dispatchEvent (type : string) (s : SheetElement) : SheetElement :=
  with_dispatched s (dispatched s ++ [type]).

(** [window.addEventListener(type, callback)]: a listener already in the
    list is not added twice. *)
Definition addEventListener (type : string) (callback : Callback)
    (s : SheetElement) : SheetElement :=
  if bool_decide ((type, callback) ∈ windowListeners s) then s
  else with_windowListeners s (windowListeners s ++ [(type, callback)]).

(** [window.removeEventListener(type, callback)] *)
Definition removeEventListener (type : string) (callback : Callback)
    (s : SheetElement) : SheetElement :=
  with_windowListeners s
    (filter (λ l, l ≠ (type, callback)) (windowListeners s)).

(* ===================================================================== *)
(** ** The class [SheetElement] *)
(* ===================================================================== *)

(** The element as its constructor leaves it: [markup] are the attributes
    written in the HTML, [foreign] the listeners that other code has on
    the window.  The constructor sets the role, builds the shadow tree
    (the nodes of [Node]) and registers [#onClick] for clicks on the host
    and the bound listeners on the draggable area and the close button;
    these three registrations never change and are part of [click] and
    [pointerDown] below.  The constructor does not touch the cursor of
    the body; it is taken as unset here, and what other code writes to
    it afterwards is the action [ForeignCursor] below. *)
Definition constructor (markup : gmap string string)
    (foreign : list (string * nat)) : SheetElement :=
  {| attributes := <["role" := "dialog"]> markup;
     dispatched := [];
     dragPosition := None;
     scaleDownTo := None;
     sheetClassList := {["sheet-contents"]};
     sheetTransform := TransformNone;
     sheetTransition := "";
     draggableAreaCursor := "";
     bodyCursor := "";
     windowListeners := (λ l, (l.1, Foreign l.2)) <$> foreign |}.

(** *** Opening and closing *)

Definition showModal (s : SheetElement) : SheetElement :=
  let s := setAttribute "open" "true" s in
  dispatchEvent "open" s.

Definition show (s : SheetElement) : SheetElement :=
  showModal s.

Definition close (s : SheetElement) : SheetElement :=
  let s := removeAttribute "open" s in
  dispatchEvent "close" s.

(** [get open()] *)
Definition get_open (s : SheetElement) : bool :=
  hasAttribute "open" s.

(** [set open(value)]; the value that the setter returns is dropped by
    the language. *)
Definition set_open (v : value) (s : SheetElement) : SheetElement :=
  if strictly_false v || strictly_undefined v then close s
  else show s.

(** *** The accessors of [options] *)

Definition get_closeOnBackgroundClick (s : SheetElement) : bool :=
  negb (hasAttribute "ignore-background-click" s).

Definition set_closeOnBackgroundClick (v : value) (s : SheetElement) : SheetElement :=
  if Boolean v
  then removeAttribute "ignore-background-click" s
  else setAttribute "ignore-background-click" "true" s.

Definition get_closeOnEscapeKey (s : SheetElement) : bool :=
  negb (hasAttribute "ignore-escape-key" s).

Definition set_closeOnEscapeKey (v : value) (s : SheetElement) : SheetElement :=
  if Boolean v
  then removeAttribute "ignore-escape-key" s
  else setAttribute "ignore-escape-key" "true" s.

(** *** Dismissal *)

(** [#onClick]: [path.find] returns the first matching item or
    [undefined], and a node is truthy. *)
Definition onClick (event : Event) (s : SheetElement) : SheetElement :=
  let path := composedPath event in
  if negb (bool_decide (is_Some (find (λ item, bool_decide (item = SheetContents)) path)))
     && get_closeOnBackgroundClick s
  then close s
  else s.

Definition onCloseButtonClick (s : SheetElement) : SheetElement :=
  close s.

Definition onKeyUp (env : Env) (event : Event) (s : SheetElement) : SheetElement :=
  let isSheetElementFocused :=
    elementContains env (target event) Host && isFocused env (target event) in
  if bool_decide (key event = "Escape") && negb isSheetElementFocused
     && get_closeOnEscapeKey s
  then close s
  else s.

(** *** Dragging *)

Definition dragSheet (distanceToTheBottomInPercents : number)
    (s : SheetElement) : SheetElement :=
  let translateY := (ofZ 100 - distanceToTheBottomInPercents)%js in
  let scale :=
    mapNumber distanceToTheBottomInPercents (ofZ 0, ofZ 100)
      (ToNumber (scaleDownTo s), ofZ 1) in
  with_sheetStyle s (TransformDrag translateY scale) "none".

Definition onDragStart (env : Env) (event : Event) (s : SheetElement)
    : result SheetElement :=
  let s := with_dragPosition s (pageYOf event) in
  let s := with_sheetClassList s ({["is-resized"]} ∪ sheetClassList s) in
  let s := with_cursors s "grabbing" in
  Ok (with_scaleDownTo s (Some (getCSSVariableValue env "--scale-down-to"))).

Definition getDistanceToTheBottomInPercents (env : Env) (y : number)
    (s : SheetElement) : number :=
  let deltaY := (ToNumber (dragPosition s) - y)%js in
  let distanceToTheBottomInPercents :=
    (ofZ 100 + deltaY / ofZ (Z.of_N (clientHeight env)) * ofZ 100)%js in
  Math.max (ofZ 0) (Math.min (ofZ 100) distanceToTheBottomInPercents).

(** The two intermediate values of the function above. *)
Definition deltaY (y : number) (s : SheetElement) : number :=
  (ToNumber (dragPosition s) - y)%js.

Definition distanceBeforeClamp (env : Env) (y : number) (s : SheetElement) : number :=
  (ofZ 100 + deltaY y s / ofZ (Z.of_N (clientHeight env)) * ofZ 100)%js.

Definition onDragMove (env : Env) (event : Event) (s : SheetElement)
    : result SheetElement :=
  match dragPosition s with
  | None => Ok s
  | Some _ =>
      let y := ToNumber (pageYOf event) in
      Ok (dragSheet (getDistanceToTheBottomInPercents env y s) s)
  end.

Definition onDragEnd (env : Env) (event : Event) (s : SheetElement)
    : result SheetElement :=
  match dragPosition s with
  | None => Ok s
  | Some _ =>
      let y := ToNumber (pageYOf event) in
      let distanceToTheBottomInPercents :=
        getDistanceToTheBottomInPercents env y s in
      let s := if (distanceToTheBottomInPercents <? ofZ 75)%js
               then close s else s in
      let s := with_cursors s "" in
      let s := with_dragPosition s None in
      let s := with_sheetClassList s (sheetClassList s ∖ {["is-resized"]}) in
      Ok (with_sheetStyle s TransformNone "")
  end.

(** *** Mounting and unmounting *)

Definition connectedCallback (s : SheetElement) : SheetElement :=
  let s := addEventListener "keyup" (Own BoundOnKeyUp) s in
  let s := addEventListener "mousemove" (Own BoundOnDragMove) s in
  let s := addEventListener "touchmove" (Own BoundOnDragMove) s in
  let s := addEventListener "mouseup" (Own BoundOnDragEnd) s in
  addEventListener "touchend" (Own BoundOnDragEnd) s.

Definition disconnectedCallback (s : SheetElement) : SheetElement :=
  let s := removeEventListener "keyup" (Own BoundOnKeyUp) s in
  let s := removeEventListener "mousemove" (Own BoundOnDragMove) s in
  let s := removeEventListener "touchmove" (Own BoundOnDragMove) s in
  let s := removeEventListener "mouseup" (Own BoundOnDragEnd) s in
  removeEventListener "touchend" (Own BoundOnDragEnd) s.

(* ===================================================================== *)
(** ** Event dispatch *)
(* ===================================================================== *)

(** An exception that escapes a listener is reported by the dispatcher
    and does not reach the caller; the state is then the one that the
    listener left.  The listeners of this class raise nowhere: with a
    session they read [pageY], which is [undefined] at worst, and
    [undefined] turns into [NaN] in the arithmetic. *)
Definition reported (s : SheetElement) (r : result SheetElement) : SheetElement :=
  match r with
  | Ok s' => s'
  | Throw _ => s
  end.

(** Calling an entry of [#eventListeners]. *)
Definition invoke (env : Env) (l : BoundListener) (event : Event)
    (s : SheetElement) : result SheetElement :=
  match l with
  | BoundOnDragMove => onDragMove env event s
  | BoundOnDragStart => onDragStart env event s
  | BoundOnDragEnd => onDragEnd env event s
  | BoundOnKeyUp => Ok (onKeyUp env event s)
  | BoundOnCloseButtonClick => Ok (onCloseButtonClick s)
  | BoundOnClick => Ok (onClick event s)
  end.

(** A click travels along its path, target first, and runs the listeners
    that the constructor registered: [onCloseButtonClick] on the close
    button and [#onClick] on the host. *)
Definition clickListener (event : Event) (s : SheetElement) (n : Node) : SheetElement :=
  match n with
  | CloseButton => onCloseButtonClick s
  | Host => onClick event s
  | _ => s
  end.

Definition click (event : Event) (s : SheetElement) : SheetElement :=
  foldl (clickListener event) s (composedPath event).

(** A [mousedown] or [touchstart] runs [onDragStart] when it passes
    through the draggable area. *)
Definition pointerDown (env : Env) (event : Event) (s : SheetElement) : SheetElement :=
  if bool_decide (DraggableArea ∈ composedPath event)
  then reported s (invoke env BoundOnDragStart event s)
  else s.

(** An event of type [type] that reaches the window runs, in order, the
    listeners registered there for that type.  The code of a foreign
    listener is not the element's; it leaves the state alone. *)
Definition windowListener (env : Env) (type : string) (event : Event)
    (s : SheetElement) (l : string * Callback) : SheetElement :=
  if bool_decide (l.1 = type) then
    match l.2 with
    | Own b => reported s (invoke env b event s)
    | Foreign _ => s
    end
  else s.

Definition windowEvent (env : Env) (type : string) (event : Event)
    (s : SheetElement) : SheetElement :=
  foldl (windowListener env type event) s (windowListeners s).

(* ===================================================================== *)
(** ** Reachable states *)
(* ===================================================================== *)

(** What can happen to a sheet once it is constructed.  The listener list
    of the window and the cursor of the body belong to the whole
    document: other code (another sheet, a script) subscribes and
    unsubscribes listeners of its own and writes the cursor. *)
Inductive Action : Type :=
| CallShow
| CallShowModal
| CallClose
| AssignOpen (v : value)
| AssignCloseOnBackgroundClick (v : value)
| AssignCloseOnEscapeKey (v : value)
| SetAttribute (name v : string)
| RemoveAttribute (name : string)
| Click (event : Event)
| PointerDown (event : Event)
| WindowEvent (type : string) (event : Event)
| Connected
| Disconnected
| ForeignSubscribe (type : string) (id : nat)
| ForeignUnsubscribe (type : string) (id : nat)
| ForeignCursor (cursor : string).

Definition step (env : Env) (a : Action) (s : SheetElement) : SheetElement :=
  match a with
  | CallShow => show s
  | CallShowModal => showModal s
  | CallClose => close s
  | AssignOpen v => set_open v s
  | AssignCloseOnBackgroundClick v => set_closeOnBackgroundClick v s
  | AssignCloseOnEscapeKey v => set_closeOnEscapeKey v s
  | SetAttribute name v => setAttribute name v s
  | RemoveAttribute name => removeAttribute name s
  | Click event => click event s
  | PointerDown event => pointerDown env event s
  | WindowEvent type event => windowEvent env type event s
  | Connected => connectedCallback s
  | Disconnected => disconnectedCallback s
  | ForeignSubscribe type id => addEventListener type (Foreign id) s
  | ForeignUnsubscribe type id => removeEventListener type (Foreign id) s
  | ForeignCursor cursor => with_bodyCursor s cursor
  end.

Inductive reachable : SheetElement → Prop :=
| reachable_constructor markup foreign :
    reachable (constructor markup foreign)
| reachable_step env a s :
    reachable s → reachable (step env a s).

(** A run of actions, each with the environment it happens in. *)
Definition run (l : list (Env * Action)) (s : SheetElement) : SheetElement :=
  foldl (λ s ea, step ea.1 ea.2 s) s l.

(** The subscriptions of a mounted sheet. *)
Definition subscriptions : list (string * Callback) :=
  [ ("keyup", Own BoundOnKeyUp);
    ("mousemove", Own BoundOnDragMove);
    ("touchmove", Own BoundOnDragMove);
    ("mouseup", Own BoundOnDragEnd);
    ("touchend", Own BoundOnDragEnd) ].

Definition mounted (s : SheetElement) : Prop :=
  ∀ l, l ∈ subscriptions → l ∈ windowListeners s.

Definition is_own (l : string * Callback) : bool :=
  match l.2 with Own _ => true | Foreign _ => false end.

(** The own listeners on the window are subscriptions, each at most once. *)
Definition listeners_ok (ls : list (string * Callback)) : Prop :=
  (∀ l, l ∈ ls → is_own l = true → l ∈ subscriptions) ∧
  NoDup (filter (λ l, is_own l = true) ls).

(* ===================================================================== *)
(** ** Definitions for the statements *)
(* ===================================================================== *)

(** *** Sequences of calls *)

Inductive Call : Type :=
| Show
| Close.

Global Instance Call_eq_dec : EqDecision Call.
Proof. solve_decision. Defined.

Definition call (s : SheetElement) (c : Call) : SheetElement :=
  match c with
  | Show => show s
  | Close => close s
  end.

Definition notification (c : Call) : string :=
  match c with
  | Show => "open"
  | Close => "close"
  end.

Definition calls (cs : list Call) (s : SheetElement) : SheetElement :=
  foldl call s cs.

(** The reading of the assignment by truthiness: [show()] for a truthy
    value, [close()] for a falsy one. *)
Definition set_open_by_truthiness (v : value) (s : SheetElement) : SheetElement :=
  if Boolean v then show s else close s.

(** *** Events *)

(** A series of events on the window, each with its environment. *)
Definition windowEvents (l : list (Env * string * Event)) (s : SheetElement)
    : SheetElement :=
  foldl (λ s e, windowEvent e.1.1 e.1.2 e.2 s) s l.

(** The element that has the focus lies inside the sheet. *)
Definition focusInsideSheet (env : Env) : bool :=
  match activeElement env with
  | Some focused => contains env Host focused
  | None => false
  end.

(** The reading of the handler by the focus: an Escape closes when the
    flag is set and the focused element is not inside the sheet. *)
Definition onKeyUp_by_focus (env : Env) (event : Event) (s : SheetElement)
    : SheetElement :=
  if bool_decide (key event = "Escape") && negb (focusInsideSheet env)
     && get_closeOnEscapeKey s
  then close s else s.

(** A key event of the browser is aimed at the element that has the
    focus; this is used for a focus inside the sheet only. *)
Definition aimed_at_focus (env : Env) (event : Event) : Prop :=
  ∀ focused, activeElement env = Some focused →
             contains env Host focused = true → target event = focused.

(** The state after [#onDragEnd] with an active session, given whether
    the sheet is to be closed. *)
Definition endOfDrag (closing : bool) (s : SheetElement) : SheetElement :=
  let s := if closing then close s else s in
  let s := with_cursors s "" in
  let s := with_dragPosition s None in
  let s := with_sheetClassList s (sheetClassList s ∖ {["is-resized"]}) in
  with_sheetStyle s TransformNone "".

(** *** The examples *)

(** The sheet of the examples: constructed from empty markup on a window
    without listeners, mounted and opened. *)
Definition exampleSheet : SheetElement :=
  show (connectedCallback (constructor ∅ [])).

(** An event that carries no point. *)
Definition pointlessEvent : Event :=
  {| key := ""; target := Other 0; composedPath := [Other 0]; pointer := None |}.

(** A page where the sheet is 400 high and [--scale-down-to] is 0.9. *)
Definition exampleEnv : Env :=
  {| clientHeight := 400;
     cssVariable := λ name,
       if bool_decide (name = "--scale-down-to") then ofQ (9 # 10) else NaN;
     activeElement := None; contains := λ _ _, false |}.

(** An Escape key-up aimed at the node [n], and a page where [n] has the
    focus and lies inside the sheet or not. *)
Definition escapeOn (n : Node) : Event :=
  {| key := "Escape"; target := n; composedPath := [n]; pointer := None |}.

Definition focusOn (n : Node) (inside : bool) : Env :=
  {| clientHeight := 400; cssVariable := λ _, ofQ (9 # 10);
     activeElement := Some n;
     contains := λ a d, bool_decide (a = d) || (bool_decide (d = n) && inside) |}.

(** A click on the backdrop, and a click on the close button. *)
Definition backgroundClick : Event :=
  {| key := ""; target := Host; composedPath := [Host; Other 0];
     pointer := None |}.


(** A mounted sheet that was never opened. *)
Definition closedSheet : SheetElement :=
  connectedCallback (constructor ∅ []).

(** A pointer event at the vertical position [y]. *)
Definition pointerAt (y : Z) : Event :=
  {| key := ""; target := Other 0; composedPath := [Other 0];
     pointer := Some {| pageY := ofZ y |} |}.

(** The sheet of the examples, grabbed at the vertical position 300. *)
Definition grabbedSheet : SheetElement :=
  reported exampleSheet (onDragStart exampleEnv (pointerAt 300) exampleSheet).

(** The drag goes on: up to 200, then down to 500, where it is released. *)
Definition movedUp : SheetElement :=
  reported grabbedSheet (onDragMove exampleEnv (pointerAt 200) grabbedSheet).

Definition movedDown : SheetElement :=
  reported movedUp (onDragMove exampleEnv (pointerAt 500) movedUp).

Definition released : SheetElement :=
  reported movedDown (onDragEnd exampleEnv (pointerAt 500) movedDown).

(** *** Drag sessions *)


(** The marks that an active session has left on the element. *)
Definition session_traces (s : SheetElement) : Prop :=
  is_Some (dragPosition s) →
  ("is-resized" ∈ sheetClassList s) ∧ draggableAreaCursor s = "grabbing" ∧
  is_Some (scaleDownTo s).

(** The fields that a drag reads or writes. *)
Definition dragFields (s : SheetElement) :=
  (dragPosition s, scaleDownTo s, sheetClassList s, sheetTransform s,
   sheetTransition s, draggableAreaCursor s, bodyCursor s).


(** The height of the sheet as a rational. *)
Definition heightOf (env : Env) : Qc :=
  Q2Qc (inject_Z (Z.of_N (clientHeight env))).

(** The own listeners on the window, in order of registration. *)
Definition ownListeners (s : SheetElement) : list (string * Callback) :=
  filter (λ l, is_own l = true) (windowListeners s).

(** The event types of the subscriptions. *)
Definition subscribedTypes : list string :=
  ["keyup"; "mousemove"; "touchmove"; "mouseup"; "touchend"].

(* ===================================================================== *)
(** ** Attributes and notifications *)
(* ===================================================================== *)

Lemma hasAttribute_setAttribute name v s :
  hasAttribute name (setAttribute name v s) = true.
Proof.
  unfold hasAttribute, setAttribute. simpl.
  rewrite lookup_insert_eq. by apply bool_decide_eq_true.
Qed.

Lemma hasAttribute_removeAttribute name s :
  hasAttribute name (removeAttribute name s) = false.
Proof.
  unfold hasAttribute, removeAttribute. simpl.
  rewrite lookup_delete_eq. apply bool_decide_eq_false. by intros [? ?].
Qed.

Lemma hasAttribute_setAttribute_ne name name' v s :
  name ≠ name' →
  hasAttribute name' (setAttribute name v s) = hasAttribute name' s.
Proof.
  intros Hne. unfold hasAttribute, setAttribute. simpl.
  by rewrite lookup_insert_ne.
Qed.

Lemma hasAttribute_removeAttribute_ne name name' s :
  name ≠ name' →
  hasAttribute name' (removeAttribute name s) = hasAttribute name' s.
Proof.
  intros Hne. unfold hasAttribute, removeAttribute. simpl.
  by rewrite lookup_delete_ne.
Qed.

Lemma hasAttribute_dispatchEvent name type s :
  hasAttribute name (dispatchEvent type s) = hasAttribute name s.
Proof. reflexivity. Qed.

Lemma get_open_show s : get_open (show s) = true.
Proof.
  unfold get_open, show, showModal.
  by rewrite hasAttribute_dispatchEvent, hasAttribute_setAttribute.
Qed.

Lemma get_open_close s : get_open (close s) = false.
Proof.
  unfold get_open, close.
  by rewrite hasAttribute_dispatchEvent, hasAttribute_removeAttribute.
Qed.

Lemma dispatched_show s : dispatched (show s) = dispatched s ++ ["open"].
Proof. reflexivity. Qed.

Lemma dispatched_close s : dispatched (close s) = dispatched s ++ ["close"].
Proof. reflexivity. Qed.

(** Appending a notification changes the log. *)
Lemma log_grows (log : list string) (type : string) : log ++ [type] ≠ log.
Proof.
  intros H. apply (f_equal length) in H.
  rewrite length_app in H. simpl in H. lia.
Qed.

(** *** Sequences of [show()] and [close()] *)

Lemma dispatched_call s c :
  dispatched (call s c) = dispatched s ++ [notification c].
Proof. by destruct c. Qed.

Lemma dispatched_calls cs : ∀ s,
  dispatched (calls cs s) = dispatched s ++ (notification <$> cs).
Proof.
  induction cs as [|c cs IH]; intros s; simpl.
  - by rewrite app_nil_r.
  - unfold calls in *. simpl. rewrite IH, dispatched_call.
    by rewrite <- app_assoc.
Qed.

Lemma get_open_call s c : get_open (call s c) = bool_decide (c = Show).
Proof.
  destruct c; simpl.
  - apply get_open_show.
  - apply get_open_close.
Qed.

(** C1. After any sequence of [show()] and [close()] calls, the [open]
    attribute is present exactly when the last call was [show()]; the
    notifications dispatched by the sequence are, call by call, one
    ["open"] for each [show()] and one ["close"] for each [close()],
    whatever the state the call is made in, so also for a [close()] on a
    sheet that is already closed.  [show()] is [showModal()]. *)
Theorem show_close_sequence (s : SheetElement) (cs : list Call) (c : Call) :
  get_open (calls (cs ++ [c]) s) = bool_decide (c = Show) ∧
  dispatched (calls (cs ++ [c]) s)
    = dispatched s ++ (notification <$> (cs ++ [c])) ∧
  (∀ s', show s' = showModal s') ∧
  (∀ s', dispatched (show s') = dispatched s' ++ ["open"]) ∧
  (∀ s', dispatched (close s') = dispatched s' ++ ["close"]) ∧
  dispatched (close (close s)) = dispatched s ++ ["close"; "close"].
Proof.
  repeat split.
  - unfold calls. rewrite foldl_app. simpl. apply get_open_call.
  - apply dispatched_calls.
  - simpl. by rewrite <- app_assoc.
Qed.

(** Closing is never the identity: it extends the log. *)
Lemma close_neq s : close s ≠ s.
Proof.
  intros H. apply (f_equal dispatched) in H.
  rewrite dispatched_close in H. by apply log_grows in H.
Qed.

Lemma show_neq_close s : show s ≠ close s.
Proof.
  intros H. apply (f_equal dispatched) in H.
  rewrite dispatched_show, dispatched_close in H.
  by apply app_inv_head in H.
Qed.

(** *** The [open] property *)

(** C5, as stated, fails: [null] is falsy, and assigning it opens the
    sheet. *)
Lemma set_open_null_shows :
  Boolean VNull = false ∧
  set_open VNull (constructor ∅ []) ≠ set_open_by_truthiness VNull (constructor ∅ []) ∧
  get_open (set_open VNull (constructor ∅ [])) = true ∧
  dispatched (set_open VNull (constructor ∅ [])) = ["open"].
Proof.
  split; [reflexivity|]. split; [|split].
  - unfold set_open_by_truthiness. simpl. apply show_neq_close.
  - apply get_open_show.
  - reflexivity.
Qed.

(** C5, amended. Assigning [v] to [open] is a call of [close()] exactly
    when [v] is [false] or [undefined], and a call of [show()] for every
    other value: every truthy value opens the sheet, and so do the falsy
    values [null], [0], [NaN] and the empty string. *)
Theorem set_open_spec (v : value) (s : SheetElement) :
  (set_open v s = close s ↔ v = VBool false ∨ v = VUndefined) ∧
  (set_open v s = show s ↔ v ≠ VBool false ∧ v ≠ VUndefined) ∧
  set_open (VBool true) s = show s ∧
  set_open (VBool false) s = close s ∧
  set_open VUndefined s = close s ∧
  (if Boolean v then set_open v s = show s else True) ∧
  set_open VNull s = show s ∧
  set_open (VNumber (ofZ 0)) s = show s ∧
  set_open (VNumber NaN) s = show s ∧
  set_open (VString "") s = show s.
Proof.
  assert (Hne := show_neq_close s).
  assert (Hclose : set_open v s = close s ↔ v = VBool false ∨ v = VUndefined).
  { split.
    - destruct v as [| |[|]| | |]; simpl; intros H; auto; by destruct Hne.
    - intros [-> | ->]; reflexivity. }
  assert (Hshow : set_open v s = show s ↔ v ≠ VBool false ∧ v ≠ VUndefined).
  { split.
    - intros H. split; intros ->; simpl in H; by destruct Hne.
    - intros [H1 H2]. destruct v as [| |[|]| | |]; try reflexivity;
        [by destruct H2 | by destruct H1]. }
  split; [exact Hclose|]. split; [exact Hshow|].
  repeat split.
  destruct v as [| |[|]| | |]; simpl; try exact I; try reflexivity;
    destruct (negb _); try exact I; reflexivity.
Qed.

(** *** The options *)

(** C7. In every state, each option reads as the absence of its marker
    attribute, and assigning an option adds or removes that attribute and
    no other: afterwards the option reads as the truthiness of the value
    assigned, and the other option and the [open] attribute are as
    before. *)
Theorem options_mirror_attributes (s : SheetElement) (v : value) :
  get_closeOnBackgroundClick s = negb (hasAttribute "ignore-background-click" s) ∧
  get_closeOnEscapeKey s = negb (hasAttribute "ignore-escape-key" s) ∧
  hasAttribute "ignore-background-click" (set_closeOnBackgroundClick v s)
    = negb (Boolean v) ∧
  get_closeOnBackgroundClick (set_closeOnBackgroundClick v s) = Boolean v ∧
  get_closeOnEscapeKey (set_closeOnBackgroundClick v s) = get_closeOnEscapeKey s ∧
  get_open (set_closeOnBackgroundClick v s) = get_open s ∧
  hasAttribute "ignore-escape-key" (set_closeOnEscapeKey v s)
    = negb (Boolean v) ∧
  get_closeOnEscapeKey (set_closeOnEscapeKey v s) = Boolean v ∧
  get_closeOnBackgroundClick (set_closeOnEscapeKey v s)
    = get_closeOnBackgroundClick s ∧
  get_open (set_closeOnEscapeKey v s) = get_open s.
Proof.
  unfold get_closeOnBackgroundClick, get_closeOnEscapeKey, get_open,
    set_closeOnBackgroundClick, set_closeOnEscapeKey.
  repeat split; destruct (Boolean v);
    rewrite ?hasAttribute_setAttribute, ?hasAttribute_removeAttribute,
      ?hasAttribute_setAttribute_ne, ?hasAttribute_removeAttribute_ne
      by discriminate; reflexivity.
Qed.

(* ===================================================================== *)
(** ** The listeners on the window *)
(* ===================================================================== *)

(** Only mounting, unmounting and foreign code change the listener list
    of the window. *)

Lemma windowListeners_close s : windowListeners (close s) = windowListeners s.
Proof. reflexivity. Qed.

Lemma windowListeners_show s : windowListeners (show s) = windowListeners s.
Proof. reflexivity. Qed.

Lemma windowListeners_onClick event s :
  windowListeners (onClick event s) = windowListeners s.
Proof. unfold onClick. by destruct (_ && _). Qed.

Lemma windowListeners_onKeyUp env event s :
  windowListeners (onKeyUp env event s) = windowListeners s.
Proof. unfold onKeyUp. by destruct (_ && _). Qed.

Lemma windowListeners_invoke env b event s s' :
  invoke env b event s = Ok s' → windowListeners s' = windowListeners s.
Proof.
  destruct b; simpl.
  - unfold onDragMove. destruct (dragPosition s); by intros [= <-].
  - unfold onDragStart. by intros [= <-].
  - unfold onDragEnd. destruct (dragPosition s); [|by intros [= <-]].
    intros [= <-]. simpl. by destruct (_ <? _)%js.
  - intros [= <-]. apply windowListeners_onKeyUp.
  - by intros [= <-].
  - intros [= <-]. apply windowListeners_onClick.
Qed.

Lemma windowListeners_reported env b event s :
  windowListeners (reported s (invoke env b event s)) = windowListeners s.
Proof.
  destruct (invoke env b event s) eqn:E; simpl; [|done].
  by apply windowListeners_invoke in E.
Qed.

Lemma windowListeners_windowListener env type event s l :
  windowListeners (windowListener env type event s l) = windowListeners s.
Proof.
  unfold windowListener. case_bool_decide; [|done].
  destruct l.2; [|done]. apply windowListeners_reported.
Qed.

Lemma windowListeners_foldl_windowListener env type event ls : ∀ s,
  windowListeners (foldl (windowListener env type event) s ls) = windowListeners s.
Proof.
  induction ls as [|l ls IH]; intros s; simpl; [done|].
  by rewrite IH, windowListeners_windowListener.
Qed.

Lemma windowListeners_windowEvent env type event s :
  windowListeners (windowEvent env type event s) = windowListeners s.
Proof. apply windowListeners_foldl_windowListener. Qed.

Lemma windowListeners_click event s :
  windowListeners (click event s) = windowListeners s.
Proof.
  unfold click. generalize (composedPath event) as path.
  intros path. revert s.
  induction path as [|n path IH]; intros s; simpl; [done|].
  rewrite IH. destruct n; simpl; try done. apply windowListeners_onClick.
Qed.

Lemma windowListeners_pointerDown env event s :
  windowListeners (pointerDown env event s) = windowListeners s.
Proof.
  unfold pointerDown. case_bool_decide; [|done].
  apply windowListeners_reported.
Qed.

(** *** The invariant of the listener list *)

Lemma is_own_subscriptions l : l ∈ subscriptions → is_own l = true.
Proof.
  unfold subscriptions. rewrite !elem_of_cons, elem_of_nil.
  intros [->|[->|[->|[->|[->|[]]]]]]; reflexivity.
Qed.

(** Each event type has one subscription. *)
Lemma subscriptions_functional type b b' :
  (type, Own b) ∈ subscriptions → (type, Own b') ∈ subscriptions → b = b'.
Proof.
  unfold subscriptions. rewrite !elem_of_cons, !elem_of_nil.
  intros [H|[H|[H|[H|[H|[]]]]]] [H'|[H'|[H'|[H'|[H'|[]]]]]];
    congruence.
Qed.

Lemma listeners_ok_add type callback s :
  (is_own (type, callback) = true → (type, callback) ∈ subscriptions) →
  listeners_ok (windowListeners s) →
  listeners_ok (windowListeners (addEventListener type callback s)).
Proof.
  intros Hsub [Hown Hnodup]. unfold addEventListener.
  case_bool_decide as Hin; [by split|]. simpl. split.
  - intros l. rewrite elem_of_app, list_elem_of_singleton.
    intros [Hl | ->]; auto.
  - rewrite filter_app. apply NoDup_app. split; [done|]. split.
    + intros l Hl Hl'. apply list_elem_of_filter in Hl as [_ Hl].
      apply list_elem_of_filter in Hl' as [_ Hl'].
      apply list_elem_of_singleton in Hl' as ->. contradiction.
    + apply NoDup_filter, NoDup_singleton.
Qed.

Lemma listeners_ok_remove type callback s :
  listeners_ok (windowListeners s) →
  listeners_ok (windowListeners (removeEventListener type callback s)).
Proof.
  intros [Hown Hnodup]. simpl. split.
  - intros l Hl. apply list_elem_of_filter in Hl as [_ Hl]. auto.
  - rewrite list_filter_filter.
    rewrite (list_filter_iff _ (λ l, l ≠ (type, callback) ∧ is_own l = true))
      by (intros l; tauto).
    rewrite <- list_filter_filter. by apply NoDup_filter.
Qed.

Lemma listeners_ok_connectedCallback s :
  listeners_ok (windowListeners s) →
  listeners_ok (windowListeners (connectedCallback s)).
Proof.
  intros H. unfold connectedCallback.
  repeat (apply listeners_ok_add;
          [intros _; unfold subscriptions; set_solver|]).
  exact H.
Qed.

Lemma listeners_ok_disconnectedCallback s :
  listeners_ok (windowListeners s) →
  listeners_ok (windowListeners (disconnectedCallback s)).
Proof.
  intros H. unfold disconnectedCallback.
  by repeat apply listeners_ok_remove.
Qed.

Lemma listeners_ok_constructor markup foreign :
  listeners_ok (windowListeners (constructor markup foreign)).
Proof.
  simpl. split.
  - intros l Hl Hown. apply list_elem_of_fmap in Hl as [x [-> _]]. discriminate.
  - induction foreign as [|x foreign IH]; simpl; [apply NoDup_nil_2|].
    rewrite filter_cons_False; [done|]. simpl. discriminate.
Qed.

Lemma listeners_ok_step env a s :
  listeners_ok (windowListeners s) →
  listeners_ok (windowListeners (step env a s)).
Proof.
  intros H. destruct a; simpl; try exact H.
  - unfold set_open. by destruct (_ || _).
  - unfold set_closeOnBackgroundClick. by destruct (Boolean v).
  - unfold set_closeOnEscapeKey. by destruct (Boolean v).
  - by rewrite windowListeners_click.
  - by rewrite windowListeners_pointerDown.
  - by rewrite windowListeners_windowEvent.
  - by apply listeners_ok_connectedCallback.
  - by apply listeners_ok_disconnectedCallback.
  - apply listeners_ok_add; [discriminate | done].
  - by apply listeners_ok_remove.
Qed.

Lemma reachable_listeners_ok s :
  reachable s → listeners_ok (windowListeners s).
Proof.
  induction 1 as [markup foreign | env a s _ IH].
  - apply listeners_ok_constructor.
  - by apply listeners_ok_step.
Qed.

Lemma reachable_run l s : reachable s → reachable (run l s).
Proof.
  revert s. induction l as [|[env a] l IH]; intros s Hs; [done|].
  apply IH. simpl. by apply reachable_step.
Qed.

(** *** What an event on the window runs *)

Lemma windowListener_own env type b event s :
  windowListener env type event s (type, Own b)
    = reported s (invoke env b event s).
Proof. unfold windowListener. simpl. by rewrite bool_decide_eq_true_2. Qed.

Lemma windowListener_foreign env type type' id event s :
  windowListener env type event s (type', Foreign id) = s.
Proof. unfold windowListener. simpl. by case_bool_decide. Qed.

Lemma windowListener_other_type env type type' callback event s :
  type' ≠ type →
  windowListener env type event s (type', callback) = s.
Proof.
  intros Hne. unfold windowListener. simpl. by rewrite bool_decide_eq_false_2.
Qed.

Lemma foldl_windowListener_subscribed env type b event ls : ∀ s,
  (∀ b', (type, Own b') ∈ ls → b' = b) →
  NoDup (filter (λ l, is_own l = true) ls) →
  foldl (windowListener env type event) s ls
    = if bool_decide ((type, Own b) ∈ ls)
      then reported s (invoke env b event s) else s.
Proof.
  induction ls as [|[type' callback] ls IH]; intros s Hfun Hnodup; simpl.
  - reflexivity.
  - assert (Hfun' : ∀ b', (type, Own b') ∈ ls → b' = b).
    { intros b' Hb'. apply Hfun. by right. }
    destruct (decide (type' = type)) as [->|Hne].
    + destruct callback as [b'|id].
      * assert (b' = b) as -> by (apply Hfun; left).
        rewrite filter_cons_True in Hnodup by reflexivity.
        apply NoDup_cons in Hnodup as [Hnotin Hnodup].
        rewrite windowListener_own, IH by done.
        rewrite bool_decide_eq_false_2.
        -- rewrite bool_decide_eq_true_2; [done | left].
        -- intros Hin. apply Hnotin. by apply list_elem_of_filter.
      * rewrite filter_cons_False in Hnodup by (simpl; discriminate).
        rewrite windowListener_foreign, IH by done.
        rewrite (bool_decide_ext (_ ∈ _ :: ls) ((type, Own b) ∈ ls)); [done|].
        rewrite elem_of_cons. split; [intros [[=]|?]; done | by right].
    + assert (NoDup (filter (λ l, is_own l = true) ls)) as Hnodup'.
      { rewrite filter_cons in Hnodup. case_decide; [|done].
        by apply NoDup_cons in Hnodup as [_ ?]. }
      rewrite windowListener_other_type, IH by done.
      rewrite (bool_decide_ext (_ ∈ _ :: ls) ((type, Own b) ∈ ls)); [done|].
      rewrite elem_of_cons. split; [intros [[=]|?]; done | by right].
Qed.

(** In a state that satisfies the invariant, an event of a subscribed
    type runs the subscribed listener once when it is on the window, and
    nothing otherwise. *)
Lemma windowEvent_subscription env type b event s :
  listeners_ok (windowListeners s) →
  (type, Own b) ∈ subscriptions →
  windowEvent env type event s
    = if bool_decide ((type, Own b) ∈ windowListeners s)
      then reported s (invoke env b event s) else s.
Proof.
  intros [Hown Hnodup] Hsub. unfold windowEvent.
  apply foldl_windowListener_subscribed; [|done].
  intros b' Hb'. apply (subscriptions_functional type); [|done].
  by apply Hown.
Qed.

Lemma windowEvent_mounted env type b event s :
  reachable s → mounted s →
  (type, Own b) ∈ subscriptions →
  windowEvent env type event s = reported s (invoke env b event s).
Proof.
  intros Hreach Hmounted Hsub.
  rewrite (windowEvent_subscription env type b)
    by auto using reachable_listeners_ok.
  rewrite bool_decide_eq_true_2; [done|]. by apply Hmounted.
Qed.

(** Without an own listener for the type, the event changes nothing. *)
Lemma foldl_windowListener_none env type event ls : ∀ s,
  (∀ b, (type, Own b) ∉ ls) →
  foldl (windowListener env type event) s ls = s.
Proof.
  induction ls as [|[type' callback] ls IH]; intros s Hnone; simpl; [done|].
  rewrite IH.
  - destruct (decide (type' = type)) as [->|Hne];
      [|by apply windowListener_other_type].
    destruct callback as [b|id]; [|apply windowListener_foreign].
    destruct (Hnone b). left.
  - intros b Hb. apply (Hnone b). by right.
Qed.

Lemma windowEvent_none env type event s :
  (∀ b, (type, Own b) ∉ windowListeners s) →
  windowEvent env type event s = s.
Proof. apply foldl_windowListener_none. Qed.

(** *** Mounting and unmounting *)

Lemma elem_of_addEventListener l type callback s :
  l ∈ windowListeners (addEventListener type callback s)
  ↔ l ∈ windowListeners s ∨ l = (type, callback).
Proof.
  unfold addEventListener. case_bool_decide as Hin; simpl.
  - split; [by left | by intros [? | ->]].
  - by rewrite elem_of_app, list_elem_of_singleton.
Qed.

Lemma elem_of_removeEventListener l type callback s :
  l ∈ windowListeners (removeEventListener type callback s)
  ↔ l ∈ windowListeners s ∧ l ≠ (type, callback).
Proof. simpl. rewrite list_elem_of_filter. tauto. Qed.

Lemma elem_of_connectedCallback l s :
  l ∈ windowListeners (connectedCallback s)
  ↔ l ∈ windowListeners s ∨ l ∈ subscriptions.
Proof.
  unfold connectedCallback, subscriptions.
  rewrite !elem_of_addEventListener, !elem_of_cons, elem_of_nil. tauto.
Qed.

Lemma elem_of_disconnectedCallback l s :
  l ∈ windowListeners (disconnectedCallback s)
  ↔ l ∈ windowListeners s ∧ l ∉ subscriptions.
Proof.
  unfold disconnectedCallback, subscriptions.
  rewrite !elem_of_removeEventListener, !not_elem_of_cons, elem_of_nil. tauto.
Qed.

Lemma mounted_connectedCallback s : mounted (connectedCallback s).
Proof. intros l Hl. apply elem_of_connectedCallback. by right. Qed.

Lemma filter_id {A} (P : A → Prop) `{∀ x, Decision (P x)} (l : list A) :
  (∀ x, x ∈ l → P x) → filter P l = l.
Proof.
  induction l as [|x l IH]; intros Hall; [done|].
  rewrite filter_cons_True by (apply Hall; left).
  f_equal. apply IH. intros y Hy. apply Hall. by right.
Qed.

Lemma addEventListener_new type callback s :
  (type, callback) ∉ windowListeners s →
  windowListeners (addEventListener type callback s)
    = windowListeners s ++ [(type, callback)].
Proof.
  intros Hnew. unfold addEventListener. by rewrite bool_decide_eq_false_2.
Qed.

(** On a window without own listeners, mounting appends the five
    subscriptions and unmounting leaves the list as it was. *)
Lemma connectedCallback_fresh s :
  (∀ l, l ∈ windowListeners s → is_own l = false) →
  windowListeners (connectedCallback s) = windowListeners s ++ subscriptions.
Proof.
  intros Hforeign.
  assert (Hnot : ∀ l, is_own l = true → l ∉ windowListeners s).
  { intros l Hl Hin. apply Hforeign in Hin. congruence. }
  unfold connectedCallback, subscriptions.
  repeat (rewrite addEventListener_new;
    [ | rewrite ?elem_of_addEventListener; intros Hin;
        repeat match type of Hin with
               | _ ∨ _ => destruct Hin as [Hin|Hin]
               end;
        first [discriminate Hin | by eapply Hnot; [|exact Hin]] ]).
  by rewrite <- !app_assoc.
Qed.

Lemma disconnect_connect_fresh s :
  (∀ l, l ∈ windowListeners s → is_own l = false) →
  windowListeners (disconnectedCallback (connectedCallback s)) = windowListeners s.
Proof.
  intros Hforeign.
  assert (Hnot : ∀ l, l ∈ windowListeners s → l ∉ subscriptions).
  { intros l Hl Hin. apply is_own_subscriptions in Hin.
    apply Hforeign in Hl. congruence. }
  unfold disconnectedCallback, removeEventListener. simpl.
  rewrite !list_filter_filter.
  rewrite connectedCallback_fresh by done.
  rewrite filter_app.
  rewrite filter_id.
  - unfold subscriptions. simpl.
    repeat (rewrite filter_cons_False by (simpl; tauto)).
    by rewrite filter_nil, app_nil_r.
  - intros l Hl. apply Hnot in Hl. unfold subscriptions in Hl.
    rewrite !not_elem_of_cons in Hl. tauto.
Qed.

Lemma no_own_after_disconnectedCallback s l :
  listeners_ok (windowListeners s) →
  l ∈ windowListeners (disconnectedCallback s) → is_own l = false.
Proof.
  intros [Hown _] Hl. apply elem_of_disconnectedCallback in Hl as [Hin Hnot].
  destruct (is_own l) eqn:E; [|done]. destruct Hnot. by apply Hown.
Qed.

Lemma windowEvent_unmounted env type event s :
  listeners_ok (windowListeners s) →
  windowEvent env type event (disconnectedCallback s) = disconnectedCallback s.
Proof.
  intros Hok. apply windowEvent_none. intros b Hin.
  by apply (no_own_after_disconnectedCallback s) in Hin.
Qed.

Lemma windowEvents_unmounted l s :
  listeners_ok (windowListeners s) →
  windowEvents l (disconnectedCallback s) = disconnectedCallback s.
Proof.
  intros Hok. induction l as [|[[env type] event] l IH]; [done|].
  unfold windowEvents in *. simpl.
  by rewrite windowEvent_unmounted.
Qed.

(** C9. Mounting puts the five subscriptions (keyup, mousemove, touchmove,
    mouseup, touchend, each with its bound listener) on the window, and
    unmounting takes exactly these five off again, by the same pairs of
    type and listener: the listeners of other code stay, no listener of
    the element stays, and on a window where the element had none before
    mounting the list is back to what it was.  After unmounting, no event
    on the window, and no series of them, changes the state of the
    element, its drag position included. *)
Theorem unmount_releases_subscriptions (s : SheetElement) :
  reachable s →
  (∀ l, l ∈ windowListeners (connectedCallback s)
        ↔ l ∈ windowListeners s ∨ l ∈ subscriptions) ∧
  (∀ l, l ∈ windowListeners (disconnectedCallback s)
        ↔ l ∈ windowListeners s ∧ l ∉ subscriptions) ∧
  (∀ l, l ∈ windowListeners (disconnectedCallback s) → is_own l = false) ∧
  ((∀ l, l ∈ windowListeners s → is_own l = false) →
   windowListeners (connectedCallback s) = windowListeners s ++ subscriptions ∧
   windowListeners (disconnectedCallback (connectedCallback s))
     = windowListeners s) ∧
  (∀ env type event,
     windowEvent env type event (disconnectedCallback s)
       = disconnectedCallback s) ∧
  (∀ events,
     windowEvents events (disconnectedCallback s) = disconnectedCallback s ∧
     dragPosition (windowEvents events (disconnectedCallback s))
       = dragPosition s).
Proof.
  intros Hreach. apply reachable_listeners_ok in Hreach as Hok.
  split; [intros l; apply elem_of_connectedCallback|].
  split; [intros l; apply elem_of_disconnectedCallback|].
  split; [intros l; by apply no_own_after_disconnectedCallback|].
  split.
  { intros Hfresh. split.
    - by apply connectedCallback_fresh.
    - by apply disconnect_connect_fresh. }
  split; [intros env type event; by apply windowEvent_unmounted|].
  intros events. rewrite windowEvents_unmounted by done. done.
Qed.

Lemma reachable_exampleSheet : reachable exampleSheet.
Proof.
  pose (env := {| clientHeight := 0; cssVariable := λ _, NaN;
                  activeElement := None; contains := λ _ _, false |}).
  apply (reachable_step env CallShow).
  apply (reachable_step env Connected).
  apply reachable_constructor.
Defined.

Lemma mounted_exampleSheet : mounted exampleSheet.
Proof. apply (mounted_connectedCallback (constructor ∅ [])). Qed.

Lemma unmount_releases_subscriptions_witness :
  reachable exampleSheet ∧
  windowListeners (disconnectedCallback exampleSheet) = [] ∧
  ∀ env type event,
    windowEvent env type event (disconnectedCallback exampleSheet)
      = disconnectedCallback exampleSheet.
Proof.
  split; [exact reachable_exampleSheet|].
  split; [reflexivity|].
  apply (unmount_releases_subscriptions exampleSheet reachable_exampleSheet).
Defined.

(* ===================================================================== *)
(** ** Dragging without a session *)
(* ===================================================================== *)

Lemma onDragMove_no_session env event s :
  dragPosition s = None → onDragMove env event s = Ok s.
Proof. intros H. unfold onDragMove. by rewrite H. Qed.

Lemma onDragEnd_no_session env event s :
  dragPosition s = None → onDragEnd env event s = Ok s.
Proof. intros H. unfold onDragEnd. by rewrite H. Qed.

(** C8. While no drag session is active ([#dragPosition] is [undefined]),
    [#onDragMove] and [#onDragEnd] return normally and leave the whole
    state as it is, also for an event from which no position can be read;
    so a mousemove, touchmove, mouseup or touchend on the window changes
    nothing: no notification, no attribute, no transform, no style. *)
Theorem drag_without_session_is_noop (env : Env) (event : Event) (s : SheetElement) :
  reachable s →
  dragPosition s = None →
  onDragMove env event s = Ok s ∧
  onDragEnd env event s = Ok s ∧
  windowEvent env "mousemove" event s = s ∧
  windowEvent env "touchmove" event s = s ∧
  windowEvent env "mouseup" event s = s ∧
  windowEvent env "touchend" event s = s.
Proof.
  intros Hreach Hnone. apply reachable_listeners_ok in Hreach as Hok.
  split; [by apply onDragMove_no_session|].
  split; [by apply onDragEnd_no_session|].
  rewrite (windowEvent_subscription env "mousemove" BoundOnDragMove),
    (windowEvent_subscription env "touchmove" BoundOnDragMove),
    (windowEvent_subscription env "mouseup" BoundOnDragEnd),
    (windowEvent_subscription env "touchend" BoundOnDragEnd)
    by (try done; unfold subscriptions; set_solver).
  simpl. rewrite onDragMove_no_session, onDragEnd_no_session by done.
  simpl. by repeat case_bool_decide.
Qed.

Lemma drag_without_session_is_noop_witness :
  dragPosition exampleSheet = None ∧
  onDragMove exampleEnv pointlessEvent exampleSheet = Ok exampleSheet ∧
  onDragEnd exampleEnv pointlessEvent exampleSheet = Ok exampleSheet ∧
  windowEvent exampleEnv "mouseup" pointlessEvent exampleSheet = exampleSheet.
Proof.
  pose proof (drag_without_session_is_noop exampleEnv pointlessEvent
                exampleSheet reachable_exampleSheet eq_refl) as H.
  split; [reflexivity|]. tauto.
Defined.

(* ===================================================================== *)
(** ** The Escape key *)
(* ===================================================================== *)

Lemma isSheetElementFocused_focusInsideSheet env event :
  aimed_at_focus env event →
  elementContains env (target event) Host && isFocused env (target event)
    = focusInsideSheet env.
Proof.
  unfold aimed_at_focus, elementContains, isFocused, focusInsideSheet.
  intros Haim. destruct (activeElement env) as [focused|].
  - destruct (contains env Host focused) eqn:Hin.
    + rewrite (Haim focused) by done.
      by rewrite Hin, bool_decide_eq_true_2.
    + case_bool_decide as Heq.
      * injection Heq as <-. by rewrite Hin.
      * apply andb_false_r.
  - rewrite bool_decide_eq_false_2 by discriminate. apply andb_false_r.
Qed.

Lemma onKeyUp_spec env event s :
  aimed_at_focus env event →
  onKeyUp env event s
    = if bool_decide (key event = "Escape") && negb (focusInsideSheet env)
         && get_closeOnEscapeKey s
      then close s else s.
Proof.
  intros Haim. unfold onKeyUp.
  by rewrite isSheetElementFocused_focusInsideSheet.
Qed.

(** For a key event that is aimed at the focused element, the test of
    the handler on the target is a test on the focus. *)
Lemma escape_key_aimed_at_focus (env : Env) (event : Event) (s : SheetElement) :
  reachable s → mounted s → aimed_at_focus env event →
  windowEvent env "keyup" event s = onKeyUp env event s ∧
  (windowEvent env "keyup" event s = close s
   ↔ key event = "Escape" ∧ get_closeOnEscapeKey s = true
     ∧ focusInsideSheet env = false) ∧
  (¬ (key event = "Escape" ∧ get_closeOnEscapeKey s = true
      ∧ focusInsideSheet env = false) →
   windowEvent env "keyup" event s = s) ∧
  (focusInsideSheet env = true → windowEvent env "keyup" event s = s) ∧
  (key event = "Escape" → get_closeOnEscapeKey s = true →
   (activeElement env = None
    ∨ ∃ focused, activeElement env = Some focused
                 ∧ contains env Host focused = false) →
   windowEvent env "keyup" event s = close s).
Proof.
  intros Hreach Hmounted Haim.
  rewrite (windowEvent_mounted env "keyup" BoundOnKeyUp)
    by (try done; unfold subscriptions; set_solver).
  simpl. rewrite onKeyUp_spec by done.
  split; [done|].
  assert (Hne := close_neq s).
  destruct (focusInsideSheet env) eqn:Hfocus;
    destruct (get_closeOnEscapeKey s) eqn:Hflag;
    case_bool_decide as Hkey; simpl;
    (split; [split; [intros H; try done; by destruct Hne
                    | intros (? & ? & ?); done]|]);
    (split; [intros H; try done; destruct H; done|]);
    (split; [intros H; try done|]);
    intros ? ? Hout; try done;
    unfold focusInsideSheet in Hfocus;
    destruct Hout as [Hout | (focused & Hout & Hin)];
    rewrite Hout in Hfocus; congruence.
Qed.

Lemma close_or_stay (c : bool) (s : SheetElement) :
  ((if c then close s else s) = close s ↔ c = true) ∧
  (c = false → (if c then close s else s) = s).
Proof.
  assert (Hne := close_neq s).
  destruct c; split; done.
Qed.

(** C3, as stated, fails: with the focus on an element inside the sheet,
    an Escape key-up whose target is the body, outside the sheet, closes
    the sheet. *)
Lemma escape_aimed_elsewhere_closes :
  activeElement (focusOn (Other 1) true) = Some (Other 1) ∧
  focusInsideSheet (focusOn (Other 1) true) = true ∧
  key (escapeOn (Other 0)) = "Escape" ∧
  get_closeOnEscapeKey exampleSheet = true ∧
  onKeyUp_by_focus (focusOn (Other 1) true) (escapeOn (Other 0)) exampleSheet
    = exampleSheet ∧
  windowEvent (focusOn (Other 1) true) "keyup" (escapeOn (Other 0)) exampleSheet
    = close exampleSheet ∧
  windowEvent (focusOn (Other 1) true) "keyup" (escapeOn (Other 0)) exampleSheet
    ≠ onKeyUp_by_focus (focusOn (Other 1) true) (escapeOn (Other 0)) exampleSheet.
Proof.
  do 5 (split; [reflexivity|]).
  assert (Hclose :
    windowEvent (focusOn (Other 1) true) "keyup" (escapeOn (Other 0))
      exampleSheet = close exampleSheet) by reflexivity.
  split; [exact Hclose|]. rewrite Hclose.
  change (onKeyUp_by_focus (focusOn (Other 1) true) (escapeOn (Other 0))
            exampleSheet) with exampleSheet.
  apply close_neq.
Qed.

(** C3, amended. A key-up that reaches the window of a mounted sheet runs
    [#onKeyUp] once, and the sheet closes exactly when the key is Escape,
    [closeOnEscapeKey] is true and the target of the event is not a
    focused element inside the sheet: the handler tests the target of
    the event, not the focused element.  For a key event aimed at the
    focused element, as the browser dispatches key events, this is the
    focus: with the focus inside the sheet nothing happens, and with the
    focus outside or on no element an Escape with the flag set closes. *)
Theorem escape_key_by_target (env : Env) (event : Event) (s : SheetElement) :
  reachable s → mounted s →
  windowEvent env "keyup" event s = onKeyUp env event s ∧
  (windowEvent env "keyup" event s = close s
   ↔ key event = "Escape" ∧ get_closeOnEscapeKey s = true
     ∧ elementContains env (target event) Host
       && isFocused env (target event) = false) ∧
  (¬ (key event = "Escape" ∧ get_closeOnEscapeKey s = true
      ∧ elementContains env (target event) Host
        && isFocused env (target event) = false) →
   windowEvent env "keyup" event s = s) ∧
  (elementContains env (target event) Host = true →
   activeElement env = Some (target event) →
   windowEvent env "keyup" event s = s) ∧
  (key event = "Escape" → get_closeOnEscapeKey s = true →
   elementContains env (target event) Host = false
   ∨ activeElement env ≠ Some (target event) →
   windowEvent env "keyup" event s = close s) ∧
  (aimed_at_focus env event →
   (windowEvent env "keyup" event s = close s
    ↔ key event = "Escape" ∧ get_closeOnEscapeKey s = true
      ∧ focusInsideSheet env = false) ∧
   (focusInsideSheet env = true → windowEvent env "keyup" event s = s) ∧
   (key event = "Escape" → get_closeOnEscapeKey s = true →
    (activeElement env = None
     ∨ ∃ focused, activeElement env = Some focused
                  ∧ contains env Host focused = false) →
    windowEvent env "keyup" event s = close s)).
Proof.
  intros Hreach Hmounted.
  assert (Hrun : windowEvent env "keyup" event s = onKeyUp env event s).
  { rewrite (windowEvent_mounted env "keyup" BoundOnKeyUp)
      by (try done; unfold subscriptions; set_solver).
    reflexivity. }
  split; [exact Hrun|].
  assert (Hcond :
    bool_decide (key event = "Escape")
    && negb (elementContains env (target event) Host
             && isFocused env (target event))
    && get_closeOnEscapeKey s = true
    ↔ key event = "Escape" ∧ get_closeOnEscapeKey s = true
      ∧ elementContains env (target event) Host
        && isFocused env (target event) = false).
  { rewrite !andb_true_iff, bool_decide_eq_true, negb_true_iff. tauto. }
  destruct (close_or_stay
    (bool_decide (key event = "Escape")
     && negb (elementContains env (target event) Host
              && isFocused env (target event))
     && get_closeOnEscapeKey s) s) as [Hcloses Hstays].
  assert (Hiff : windowEvent env "keyup" event s = close s
    ↔ key event = "Escape" ∧ get_closeOnEscapeKey s = true
      ∧ elementContains env (target event) Host
        && isFocused env (target event) = false).
  { rewrite Hrun. unfold onKeyUp. by rewrite Hcloses. }
  assert (Hnot : ¬ (key event = "Escape" ∧ get_closeOnEscapeKey s = true
      ∧ elementContains env (target event) Host
        && isFocused env (target event) = false) →
    windowEvent env "keyup" event s = s).
  { intros Hn. rewrite Hrun. unfold onKeyUp. apply Hstays.
    apply not_true_is_false. intros Hc. by apply Hn, Hcond. }
  split; [exact Hiff|]. split; [exact Hnot|].
  split; [|split].
  - intros Hinside Hfocused. apply Hnot. intros (_ & _ & Hb).
    unfold isFocused in Hb.
    rewrite Hinside, bool_decide_eq_true_2 in Hb by done. discriminate.
  - intros Hkey Hflag Hout. apply Hiff. split; [done|]. split; [done|].
    destruct Hout as [-> | Hother]; [done|].
    unfold isFocused. rewrite bool_decide_eq_false_2 by done.
    apply andb_false_r.
  - intros Haim.
    destruct (escape_key_aimed_at_focus env event s Hreach Hmounted Haim)
      as (_ & Hfocus & _ & Hin & Hout).
    done.
Qed.

Lemma escape_key_by_target_witness :
  windowEvent (focusOn (Other 1) true) "keyup" (escapeOn (Other 1)) exampleSheet
    = exampleSheet ∧
  windowEvent (focusOn (Other 1) false) "keyup" (escapeOn (Other 1)) exampleSheet
    = close exampleSheet.
Proof.
  destruct (escape_key_by_target (focusOn (Other 1) true) (escapeOn (Other 1))
              exampleSheet reachable_exampleSheet mounted_exampleSheet)
    as (_ & _ & _ & Hinside & _).
  destruct (escape_key_by_target (focusOn (Other 1) false) (escapeOn (Other 1))
              exampleSheet reachable_exampleSheet mounted_exampleSheet)
    as (_ & _ & _ & _ & Houtside & _).
  split.
  - apply Hinside; reflexivity.
  - apply Houtside; [reflexivity | reflexivity | left; reflexivity].
Defined.

(* ===================================================================== *)
(** ** Clicks *)
(* ===================================================================== *)

Lemma find_SheetContents (path : list Node) :
  is_Some (find (λ item, bool_decide (item = SheetContents)) path)
  ↔ SheetContents ∈ path.
Proof.
  induction path as [|n path IH]; simpl.
  - split; [by intros [? ?] | by intros ?%elem_of_nil].
  - case_bool_decide as Hn.
    + subst n. split; [left | by eexists].
    + rewrite IH, elem_of_cons. split; [by right | by intros [<- | ?]].
Qed.

Lemma onClick_spec event s :
  onClick event s
    = if negb (bool_decide (SheetContents ∈ composedPath event))
         && get_closeOnBackgroundClick s
      then close s else s.
Proof.
  unfold onClick.
  by rewrite (bool_decide_ext _ _ (find_SheetContents (composedPath event))).
Qed.

Lemma onClick_inside event s :
  SheetContents ∈ composedPath event → onClick event s = s.
Proof. intros H. rewrite onClick_spec. by rewrite bool_decide_eq_true_2. Qed.

Lemma onClick_background event s :
  SheetContents ∉ composedPath event →
  onClick event s = if get_closeOnBackgroundClick s then close s else s.
Proof. intros H. rewrite onClick_spec. by rewrite bool_decide_eq_false_2. Qed.

(** A click that passes through the inner container: only the listener
    of the close button can act. *)
Lemma foldl_clickListener_inside event path : ∀ s,
  SheetContents ∈ composedPath event → NoDup path →
  foldl (clickListener event) s path
    = if bool_decide (CloseButton ∈ path) then close s else s.
Proof.
  induction path as [|n path IH]; intros s Hinside Hnodup; [done|].
  apply NoDup_cons in Hnodup as [Hn Hnodup]. simpl.
  rewrite IH by done.
  destruct (decide (n = CloseButton)) as [->|Hne].
  - rewrite (bool_decide_eq_false_2 _ Hn).
    rewrite bool_decide_eq_true_2 by left. done.
  - rewrite (bool_decide_ext (CloseButton ∈ n :: path) (CloseButton ∈ path))
      by (rewrite elem_of_cons; split; [by intros [<- | ?] | by right]).
    destruct n; try done. simpl. by rewrite onClick_inside.
Qed.

(** A click outside the inner container: only [#onClick] can act. *)
Lemma foldl_clickListener_background event path : ∀ s,
  CloseButton ∉ path → NoDup path →
  foldl (clickListener event) s path
    = if bool_decide (Host ∈ path) then onClick event s else s.
Proof.
  induction path as [|n path IH]; intros s Hbutton Hnodup; [done|].
  apply NoDup_cons in Hnodup as [Hn Hnodup].
  apply not_elem_of_cons in Hbutton as [Hne Hbutton]. simpl.
  rewrite IH by done.
  destruct (decide (n = Host)) as [->|Hne'].
  - rewrite (bool_decide_eq_false_2 _ Hn).
    rewrite bool_decide_eq_true_2 by left. done.
  - rewrite (bool_decide_ext (Host ∈ n :: path) (Host ∈ path))
      by (rewrite elem_of_cons; split; [by intros [<- | ?] | by right]).
    destruct n; done.
Qed.




(** C10. The handlers of the background click and of the Escape key do
    not look at the [open] attribute: what each of them does to an open
    sheet it does to a closed one.  So on a sheet that is already closed,
    a background click with [closeOnBackgroundClick] true, and an Escape
    key-up that passes the handler's test, still call [close()] and
    dispatch a further ["close"] notification. *)
Theorem dismissal_ignores_open_state (env : Env) (event : Event) (s : SheetElement) :
  get_open s = false →
  (onClick event (show s) = close (show s)
   ↔ onClick event (close s) = close (close s)) ∧
  (onKeyUp env event (show s) = close (show s)
   ↔ onKeyUp env event (close s) = close (close s)) ∧
  (SheetContents ∉ composedPath event →
   get_closeOnBackgroundClick s = true →
   onClick event s = close s ∧
   dispatched (onClick event s) = dispatched s ++ ["close"] ∧
   get_open (onClick event s) = false) ∧
  (key event = "Escape" →
   elementContains env (target event) Host && isFocused env (target event) = false →
   get_closeOnEscapeKey s = true →
   onKeyUp env event s = close s ∧
   dispatched (onKeyUp env event s) = dispatched s ++ ["close"] ∧
   get_open (onKeyUp env event s) = false).
Proof.
  intros Hclosed.
  assert (Hflags : ∀ name, name ≠ "open" →
            hasAttribute name (show s) = hasAttribute name (close s)).
  { intros name Hname. unfold show, showModal, close.
    rewrite !hasAttribute_dispatchEvent.
    rewrite hasAttribute_setAttribute_ne, hasAttribute_removeAttribute_ne; done. }
  split; [|split; [|split]].
  - rewrite !onClick_spec. unfold get_closeOnBackgroundClick.
    rewrite (Hflags "ignore-background-click") by done.
    destruct (_ && _); [done|].
    split; intros H; symmetry in H; by apply close_neq in H.
  - unfold onKeyUp, get_closeOnEscapeKey.
    rewrite (Hflags "ignore-escape-key") by done.
    destruct (_ && _); [done|].
    split; intros H; symmetry in H; by apply close_neq in H.
  - intros Hbackground Hflag.
    rewrite onClick_background, Hflag by done.
    split; [done|]. split; [done|]. apply get_open_close.
  - intros Hkey Hfocus Hflag. unfold onKeyUp.
    rewrite Hfocus, Hflag, bool_decide_eq_true_2 by done. simpl.
    split; [done|]. split; [done|]. apply get_open_close.
Qed.

Lemma dismissal_ignores_open_state_witness :
  get_open closedSheet = false ∧
  dispatched (onClick backgroundClick closedSheet) = ["close"] ∧
  dispatched (onKeyUp exampleEnv (escapeOn (Other 0)) closedSheet) = ["close"].
Proof.
  destruct (dismissal_ignores_open_state exampleEnv backgroundClick
              closedSheet eq_refl) as (_ & _ & Hclick & _).
  destruct (dismissal_ignores_open_state exampleEnv (escapeOn (Other 0))
              closedSheet eq_refl) as (_ & _ & _ & Hkey).
  split; [reflexivity|]. split.
  - apply Hclick; [|reflexivity]. compute_done.
  - apply Hkey; reflexivity.
Defined.

(* ===================================================================== *)
(** ** Releasing a drag *)
(* ===================================================================== *)

Lemma Qc_ltb_lt (a b : Qc) : Qc_ltb a b = true ↔ (a < b)%Qc.
Proof. unfold Qc_ltb, Qclt, Qlt. apply Z.ltb_lt. Qed.

Lemma ltb_irrefl (a : number) : (a <? a)%js = false.
Proof.
  destruct a as [q| | |]; simpl; try reflexivity.
  unfold Qc_ltb. apply Z.ltb_irrefl.
Qed.

(** [b <= a] excludes [a < b]. *)
Lemma leb_not_ltb (a b : number) : (b <=? a)%js = true → (a <? b)%js = false.
Proof.
  destruct a as [x| | |], b as [y| | |]; simpl; try done.
  by intros ?%negb_true_iff.
Qed.

Lemma Qc_ltb_asym (a b : Qc) : Qc_ltb a b = true → Qc_ltb b a = false.
Proof.
  unfold Qc_ltb. rewrite Z.ltb_lt, Z.ltb_ge. lia.
Qed.

(** Clamping gives a number between 0 and 100, or [NaN]. *)
Lemma clamp_range (x : number) :
  let d := Math.max (ofZ 0) (Math.min (ofZ 100) x) in
  d = NaN ∨ ((ofZ 0 <=? d)%js = true ∧ (d <=? ofZ 100)%js = true).
Proof.
  destruct x as [q| | |]; simpl; [|by right|by right|by left].
  right. unfold Math.max, Math.min, JSNumber.max, JSNumber.min. simpl.
  destruct (Qc_ltb q (Q2Qc (inject_Z 100))) eqn:Hhigh; simpl.
  - destruct (Qc_ltb (Q2Qc (inject_Z 0)) q) eqn:Hlow; simpl.
    + by rewrite (Qc_ltb_asym _ _ Hlow), (Qc_ltb_asym _ _ Hhigh).
    + done.
  - done.
Qed.

(** The corner cases of the arithmetic: a division by zero, and [NaN]
    through the clamp and the comparison. *)
Example division_by_zero :
  (ofZ 1 / ofZ 0)%js = PosInf ∧ (ofZ (-1) / ofZ 0)%js = NegInf ∧
  (ofZ 0 / ofZ 0)%js = NaN.
Proof. repeat split. Qed.

Example clamp_NaN :
  Math.max (ofZ 0) (Math.min (ofZ 100) NaN) = NaN ∧
  (NaN <? ofZ 75)%js = false ∧ (ofZ 75 <=? NaN)%js = false.
Proof. repeat split. Qed.

Lemma getDistanceToTheBottomInPercents_range env y s :
  let d := getDistanceToTheBottomInPercents env y s in
  d = NaN ∨ ((ofZ 0 <=? d)%js = true ∧ (d <=? ofZ 100)%js = true).
Proof. apply clamp_range. Qed.

Lemma getDistanceToTheBottomInPercents_clamp env y s :
  getDistanceToTheBottomInPercents env y s
    = Math.max (ofZ 0) (Math.min (ofZ 100) (distanceBeforeClamp env y s)).
Proof. reflexivity. Qed.

Lemma onDragEnd_session env event s start point :
  dragPosition s = Some start → touchPosition event = Some point →
  onDragEnd env event s
    = Ok (endOfDrag
            (getDistanceToTheBottomInPercents env (pageY point) s <? ofZ 75)%js s).
Proof.
  intros Hstart Hpoint. unfold onDragEnd, pageYOf.
  by rewrite Hstart, Hpoint.
Qed.

(** C2. When a drag with an active session is released at a readable
    position, [#onDragEnd] returns normally, ends the session, and has
    called [close()] exactly when the clamped distance to the bottom is
    less than 75: then the [open] attribute is gone and one ["close"] is
    dispatched; otherwise, and so for a distance of exactly 75 or of 75
    or more, the attributes and the log are as they were. *)
Theorem drag_end_threshold (env : Env) (event : Event) (s : SheetElement)
    (start : number) (point : Point) :
  dragPosition s = Some start →
  touchPosition event = Some point →
  let distance := getDistanceToTheBottomInPercents env (pageY point) s in
  ∃ s', onDragEnd env event s = Ok s' ∧
        dragPosition s' = None ∧
        (dispatched s' = dispatched s ++ ["close"]
         ↔ (distance <? ofZ 75)%js = true) ∧
        ((distance <? ofZ 75)%js = true →
         get_open s' = false ∧ dispatched s' = dispatched s ++ ["close"]) ∧
        ((distance <? ofZ 75)%js = false →
         attributes s' = attributes s ∧ dispatched s' = dispatched s) ∧
        (distance = ofZ 75 →
         attributes s' = attributes s ∧ dispatched s' = dispatched s) ∧
        ((ofZ 75 <=? distance)%js = true →
         attributes s' = attributes s ∧ dispatched s' = dispatched s).
Proof.
  intros Hstart Hpoint distance.
  eexists. split; [by apply (onDragEnd_session env event s start point)|].
  fold distance.
  assert (Hopen : (distance <? ofZ 75)%js = false →
            attributes (endOfDrag (distance <? ofZ 75)%js s) = attributes s ∧
            dispatched (endOfDrag (distance <? ofZ 75)%js s) = dispatched s).
  { intros ->. done. }
  split; [done|]. split; [|split; [|split; [|split]]].
  - destruct (distance <? ofZ 75)%js; simpl.
    + done.
    + split; [|done]. intros H. symmetry in H. by apply log_grows in H.
  - intros ->. split; [|done].
    unfold get_open, endOfDrag, hasAttribute. simpl.
    rewrite lookup_delete_eq. apply bool_decide_eq_false_2. by intros [? ?].
  - exact Hopen.
  - intros Heq. apply Hopen. rewrite Heq. apply ltb_irrefl.
  - intros Hle. apply Hopen. by apply leb_not_ltb.
Qed.

Lemma drag_end_threshold_witness :
  getDistanceToTheBottomInPercents exampleEnv (ofZ 400) grabbedSheet = ofZ 75 ∧
  ∃ s', onDragEnd exampleEnv (pointerAt 400) grabbedSheet = Ok s' ∧
        get_open s' = true ∧ dispatched s' = dispatched grabbedSheet.
Proof.
  assert (Hdistance :
    getDistanceToTheBottomInPercents exampleEnv (ofZ 400) grabbedSheet = ofZ 75).
  { number_eq. }
  split; [exact Hdistance|].
  destruct (drag_end_threshold exampleEnv (pointerAt 400) grabbedSheet
              (ofZ 300) {| pageY := ofZ 400 |} eq_refl eq_refl)
    as (s' & Hend & _ & _ & _ & _ & Hboundary & _).
  exists s'. split; [exact Hend|].
  destruct (Hboundary Hdistance) as [Hattributes Hlog].
  split; [|exact Hlog].
  unfold get_open, hasAttribute. rewrite Hattributes. reflexivity.
Defined.

(* ===================================================================== *)
(** ** A drag, step by step *)
(* ===================================================================== *)

(** C6. With [scaleDownTo] 0.9, a sheet height of 400 and a start at 300:
    at 200 the difference is 100 and the distance 125, clamped to 100, so
    the sheet is drawn with translateY 0% and scale 1; at 500 the
    difference is -200 and the distance 50, so translateY is 50% and the
    scale [mapNumber(50, [0, 100], [0.9, 1])], which is 0.95; the release
    at 500 closes the sheet, 50 being less than 75. *)
Theorem drag_scenario :
  dragPosition grabbedSheet = Some (ofZ 300) ∧
  scaleDownTo grabbedSheet = Some (ofQ (9 # 10)) ∧
  (* the move to 200 *)
  deltaY (ofZ 200) grabbedSheet = ofZ 100 ∧
  distanceBeforeClamp exampleEnv (ofZ 200) grabbedSheet = ofZ 125 ∧
  getDistanceToTheBottomInPercents exampleEnv (ofZ 200) grabbedSheet = ofZ 100 ∧
  onDragMove exampleEnv (pointerAt 200) grabbedSheet = Ok movedUp ∧
  sheetTransform movedUp = TransformDrag (ofZ 0) (ofZ 1) ∧
  sheetTransition movedUp = "none" ∧
  (* the move to 500 *)
  deltaY (ofZ 500) movedUp = ofZ (-200) ∧
  distanceBeforeClamp exampleEnv (ofZ 500) movedUp = ofZ 50 ∧
  getDistanceToTheBottomInPercents exampleEnv (ofZ 500) movedUp = ofZ 50 ∧
  onDragMove exampleEnv (pointerAt 500) movedUp = Ok movedDown ∧
  mapNumber (ofZ 50) (ofZ 0, ofZ 100) (ofQ (9 # 10), ofZ 1) = ofQ (95 # 100) ∧
  sheetTransform movedDown = TransformDrag (ofZ 50) (ofQ (95 # 100)) ∧
  sheetTransition movedDown = "none" ∧
  (* the release at 500 *)
  (getDistanceToTheBottomInPercents exampleEnv (ofZ 500) movedDown <? ofZ 75)%js
    = true ∧
  onDragEnd exampleEnv (pointerAt 500) movedDown = Ok released ∧
  get_open movedDown = true ∧
  get_open released = false ∧
  dispatched released = dispatched movedDown ++ ["close"] ∧
  dragPosition released = None ∧
  sheetTransform released = TransformNone.
Proof.
  repeat split;
    first [ reflexivity
          | number_eq
          | number_pair_eq
          | vm_compute; apply f_equal; apply (f_equal Fin), Qc_is_canon;
            reflexivity ].
Qed.


(* ===================================================================== *)
(** ** Reading the properties back *)
(* ===================================================================== *)

(** X2. Reading [open] after assigning [v] gives [false] when [v] is
    [false] or [undefined] and [true] otherwise, so a boolean reads back
    as itself; the assignment leaves both options as they were, and
    [show()], [close()] leave them as well. *)
Theorem open_reads_back (v : value) (b : bool) (s : SheetElement) :
  get_open (set_open v s) = negb (strictly_false v || strictly_undefined v) ∧
  get_open (set_open (VBool b) s) = b ∧
  get_closeOnBackgroundClick (set_open v s) = get_closeOnBackgroundClick s ∧
  get_closeOnEscapeKey (set_open v s) = get_closeOnEscapeKey s ∧
  get_closeOnBackgroundClick (close s) = get_closeOnBackgroundClick s ∧
  get_closeOnEscapeKey (close s) = get_closeOnEscapeKey s ∧
  get_closeOnBackgroundClick (show s) = get_closeOnBackgroundClick s ∧
  get_closeOnEscapeKey (show s) = get_closeOnEscapeKey s.
Proof.
  assert (Hshow : ∀ name, name ≠ "open" →
            hasAttribute name (show s) = hasAttribute name s).
  { intros name Hname. unfold show, showModal.
    rewrite hasAttribute_dispatchEvent.
    by rewrite hasAttribute_setAttribute_ne. }
  assert (Hclose : ∀ name, name ≠ "open" →
            hasAttribute name (close s) = hasAttribute name s).
  { intros name Hname. unfold close.
    rewrite hasAttribute_dispatchEvent.
    by rewrite hasAttribute_removeAttribute_ne. }
  unfold get_closeOnBackgroundClick, get_closeOnEscapeKey.
  repeat split.
  - unfold set_open. destruct (_ || _); simpl.
    + apply get_open_close.
    + apply get_open_show.
  - destruct b; simpl; [apply get_open_show | apply get_open_close].
  - unfold set_open. destruct (_ || _); by rewrite ?Hshow, ?Hclose.
  - unfold set_open. destruct (_ || _); by rewrite ?Hshow, ?Hclose.
  - by rewrite Hclose.
  - by rewrite Hclose.
  - by rewrite Hshow.
  - by rewrite Hshow.
Qed.

Lemma options_flags (v : value) (s : SheetElement) :
  get_closeOnBackgroundClick (set_closeOnBackgroundClick v s) = Boolean v ∧
  get_closeOnEscapeKey (set_closeOnEscapeKey v s) = Boolean v.
Proof.
  unfold get_closeOnBackgroundClick, get_closeOnEscapeKey,
    set_closeOnBackgroundClick, set_closeOnEscapeKey.
  split; destruct (Boolean v);
    by rewrite ?hasAttribute_setAttribute, ?hasAttribute_removeAttribute.
Qed.

(** X3. An option assigned a falsy value switches its trigger off: the
    background click, respectively the key-up, then leaves the sheet as
    it is, whatever the event; the close button still closes.  Assigning
    a truthy value afterwards switches the trigger on again. *)
Theorem disabled_triggers (env : Env) (event : Event) (v w : value)
    (s : SheetElement) :
  Boolean v = false →
  onClick event (set_closeOnBackgroundClick v s)
    = set_closeOnBackgroundClick v s ∧
  onKeyUp env event (set_closeOnEscapeKey v s) = set_closeOnEscapeKey v s ∧
  onCloseButtonClick (set_closeOnBackgroundClick v s)
    = close (set_closeOnBackgroundClick v s) ∧
  (Boolean w = true →
   get_closeOnBackgroundClick
     (set_closeOnBackgroundClick w (set_closeOnBackgroundClick v s)) = true ∧
   get_closeOnEscapeKey
     (set_closeOnEscapeKey w (set_closeOnEscapeKey v s)) = true).
Proof.
  intros Hv.
  destruct (options_flags v s) as (Hclick & Hkey).
  split; [|split; [|split; [reflexivity|]]].
  - unfold onClick. rewrite Hclick, Hv. by rewrite andb_false_r.
  - unfold onKeyUp. rewrite Hkey, Hv. by rewrite andb_false_r.
  - intros Hw.
    destruct (options_flags w (set_closeOnBackgroundClick v s)) as (-> & _).
    destruct (options_flags w (set_closeOnEscapeKey v s)) as (_ & ->).
    done.
Qed.

Lemma disabled_triggers_witness :
  onClick backgroundClick (set_closeOnBackgroundClick (VBool false) exampleSheet)
    = set_closeOnBackgroundClick (VBool false) exampleSheet ∧
  onKeyUp exampleEnv (escapeOn (Other 0))
      (set_closeOnEscapeKey (VNumber (ofZ 0)) exampleSheet)
    = set_closeOnEscapeKey (VNumber (ofZ 0)) exampleSheet.
Proof.
  split.
  - apply (disabled_triggers exampleEnv backgroundClick (VBool false)
             (VBool true) exampleSheet eq_refl).
  - apply (disabled_triggers exampleEnv (escapeOn (Other 0)) (VNumber (ofZ 0))
             (VBool true) exampleSheet eq_refl).
Defined.

(* ===================================================================== *)
(** ** Clicks that do not dismiss *)
(* ===================================================================== *)

(** X4. A click inside the content of the sheet (its path passes through
    the inner container) that is not on the close button changes nothing,
    whatever the flags; neither does a click that passes neither through
    the host nor through the close button. *)
Theorem click_inside_is_noop (event : Event) (s : SheetElement) :
  NoDup (composedPath event) →
  CloseButton ∉ composedPath event →
  SheetContents ∈ composedPath event ∨ Host ∉ composedPath event →
  click event s = s.
Proof.
  intros Hnodup Hbutton [Hinside | Hhost]; unfold click.
  - rewrite foldl_clickListener_inside by done.
    by rewrite bool_decide_eq_false_2.
  - rewrite foldl_clickListener_background by done.
    by rewrite bool_decide_eq_false_2.
Qed.

Lemma click_inside_is_noop_witness :
  click {| key := ""; target := Slot;
           composedPath := [Slot; SheetBody; SheetContents; ShadowRoot; Host];
           pointer := None |} exampleSheet = exampleSheet.
Proof.
  apply click_inside_is_noop; [compute_done | compute_done | left; compute_done].
Defined.

(* ===================================================================== *)
(** ** Mounting twice, unmounting twice *)
(* ===================================================================== *)

Lemma addEventListener_present type callback s :
  (type, callback) ∈ windowListeners s →
  addEventListener type callback s = s.
Proof.
  intros Hin. unfold addEventListener. by rewrite bool_decide_eq_true_2.
Qed.

Lemma with_windowListeners_id s : with_windowListeners s (windowListeners s) = s.
Proof. by destruct s. Qed.

Lemma disconnectedCallback_filter s :
  disconnectedCallback s
    = with_windowListeners s
        (filter (λ l, l ∉ subscriptions) (windowListeners s)).
Proof.
  unfold disconnectedCallback, removeEventListener. simpl.
  unfold with_windowListeners. simpl. f_equal.
  rewrite !list_filter_filter. apply list_filter_iff.
  intros l. unfold subscriptions.
  rewrite !not_elem_of_cons, elem_of_nil. tauto.
Qed.


(* ===================================================================== *)
(** ** The own listeners of a reachable sheet *)
(* ===================================================================== *)

Lemma ownListeners_unchanged s s' :
  windowListeners s' = windowListeners s → ownListeners s' = ownListeners s.
Proof. unfold ownListeners. by intros ->. Qed.

Lemma ownListeners_add_foreign type id s :
  ownListeners (addEventListener type (Foreign id) s) = ownListeners s.
Proof.
  unfold ownListeners, addEventListener. case_bool_decide; [done|]. simpl.
  rewrite filter_app, filter_cons_False by (simpl; discriminate).
  by rewrite filter_nil, app_nil_r.
Qed.

Lemma ownListeners_remove_foreign type id s :
  ownListeners (removeEventListener type (Foreign id) s) = ownListeners s.
Proof.
  unfold ownListeners. simpl. rewrite list_filter_filter.
  apply list_filter_iff. intros [type' [b|id']]; unfold is_own; simpl.
  - split; [tauto|]. intros _. split; [done | discriminate].
  - split; [tauto | discriminate].
Qed.

Lemma ownListeners_connectedCallback s :
  ownListeners s = [] ∨ ownListeners s = subscriptions →
  ownListeners (connectedCallback s) = subscriptions.
Proof.
  unfold ownListeners. intros [Hnone | Hall].
  - rewrite connectedCallback_fresh.
    + by rewrite filter_app, Hnone.
    + intros l Hl. destruct (is_own l) eqn:Hown; [|done].
      by apply (filter_nil_not_elem_of _ _ l Hnone) in Hl.
  - assert (Hin : ∀ l, l ∈ subscriptions → l ∈ windowListeners s).
    { intros l Hl. rewrite <- Hall in Hl.
      by apply list_elem_of_filter in Hl as [_ ?]. }
    unfold connectedCallback.
    rewrite (addEventListener_present "keyup"),
      (addEventListener_present "mousemove"),
      (addEventListener_present "touchmove"),
      (addEventListener_present "mouseup"),
      (addEventListener_present "touchend");
      try done; apply Hin; unfold subscriptions; set_solver.
Qed.

Lemma ownListeners_disconnectedCallback s :
  ownListeners s = [] ∨ ownListeners s = subscriptions →
  ownListeners (disconnectedCallback s) = [].
Proof.
  unfold ownListeners. intros Hown.
  rewrite disconnectedCallback_filter. simpl.
  apply elem_of_nil_inv. intros l Hl.
  apply list_elem_of_filter in Hl as [Hl Hin].
  apply list_elem_of_filter in Hin as [Hnot Hin].
  assert (Hmem : l ∈ filter (λ l, is_own l = true) (windowListeners s))
    by by apply list_elem_of_filter.
  destruct Hown as [Hown | Hown]; rewrite Hown in Hmem.
  - by apply elem_of_nil in Hmem.
  - contradiction.
Qed.

Lemma ownListeners_step env a s :
  ownListeners s = [] ∨ ownListeners s = subscriptions →
  ownListeners (step env a s) = [] ∨ ownListeners (step env a s) = subscriptions.
Proof.
  intros H.
  destruct a; simpl;
    try (rewrite (ownListeners_unchanged s); [exact H | reflexivity]).
  - rewrite (ownListeners_unchanged s); [exact H|].
    unfold set_open. by destruct (_ || _).
  - rewrite (ownListeners_unchanged s); [exact H|].
    unfold set_closeOnBackgroundClick. by destruct (Boolean v).
  - rewrite (ownListeners_unchanged s); [exact H|].
    unfold set_closeOnEscapeKey. by destruct (Boolean v).
  - rewrite (ownListeners_unchanged s); [exact H|].
    apply windowListeners_click.
  - rewrite (ownListeners_unchanged s); [exact H|].
    apply windowListeners_pointerDown.
  - rewrite (ownListeners_unchanged s); [exact H|].
    apply windowListeners_windowEvent.
  - right. by apply ownListeners_connectedCallback.
  - left. by apply ownListeners_disconnectedCallback.
  - by rewrite ownListeners_add_foreign.
  - by rewrite ownListeners_remove_foreign.
Qed.

Lemma constructed_listeners markup foreign :
  ownListeners (constructor markup foreign) = [].
Proof.
  unfold ownListeners. simpl.
  induction foreign as [|x foreign IH]; [done|]. simpl.
  by rewrite filter_cons_False by (simpl; discriminate).
Qed.

Lemma reachable_ownListeners s :
  reachable s → ownListeners s = [] ∨ ownListeners s = subscriptions.
Proof.
  induction 1 as [markup foreign | env a s _ IH].
  - left. apply (constructed_listeners markup foreign).
  - by apply ownListeners_step.
Qed.

(** X6. In every reachable state the sheet has on the window either none
    of its listeners or all five, each once and in the order in which
    [connectedCallback] subscribes them; it is never partly subscribed,
    whatever other code subscribes or unsubscribes in between.  After
    mounting it has the five, after unmounting none. *)
Theorem subscriptions_all_or_nothing (s : SheetElement) :
  reachable s →
  (ownListeners s = [] ∧ ¬ mounted s ∨ ownListeners s = subscriptions ∧ mounted s) ∧
  ownListeners (connectedCallback s) = subscriptions ∧
  ownListeners (disconnectedCallback s) = [].
Proof.
  intros Hreach. apply reachable_ownListeners in Hreach as Hown.
  split; [|split].
  - destruct Hown as [Hnone | Hall]; [left | right]; split; try done.
    + intros Hmounted.
      assert (Hin : ("keyup", Own BoundOnKeyUp) ∈ windowListeners s)
        by (apply Hmounted; unfold subscriptions; set_solver).
      by apply (filter_nil_not_elem_of _ _ _ Hnone) in Hin.
    + intros l Hl. unfold ownListeners in Hall. rewrite <- Hall in Hl.
      by apply list_elem_of_filter in Hl as [_ ?].
  - by apply ownListeners_connectedCallback.
  - by apply ownListeners_disconnectedCallback.
Qed.

Lemma subscriptions_all_or_nothing_witness :
  ownListeners exampleSheet = subscriptions ∧
  ownListeners (disconnectedCallback exampleSheet) = [].
Proof.
  destruct (subscriptions_all_or_nothing exampleSheet reachable_exampleSheet)
    as (_ & _ & Hnone).
  split; [reflexivity | exact Hnone].
Defined.

Lemma reachable_grabbedSheet : reachable grabbedSheet.
Proof.
  apply (reachable_step exampleEnv
           (PointerDown {| key := ""; target := DraggableArea;
                           composedPath := [DraggableArea];
                           pointer := Some {| pageY := ofZ 300 |} |})).
  exact reachable_exampleSheet.
Defined.

Lemma getDistance_undefined env s :
  getDistanceToTheBottomInPercents env (ToNumber None) s = NaN.
Proof.
  unfold getDistanceToTheBottomInPercents.
  by destruct (ToNumber (dragPosition s)).
Qed.

(** X7. In every reachable state an event on the window whose type is
    none of keyup, mousemove, touchmove, mouseup and touchend changes
    nothing.  On a mounted sheet a mousemove and a touchmove both run
    [#onDragMove] once, a mouseup and a touchend both run [#onDragEnd]
    once, a keyup runs [#onKeyUp] once.  A mouseup without coordinates
    during a session gives the distance [NaN]: the session ends and the
    sheet is not closed. *)
Theorem window_event_table (env : Env) (type : string) (event : Event)
    (s : SheetElement) :
  reachable s →
  (type ∉ subscribedTypes → windowEvent env type event s = s) ∧
  (mounted s →
   windowEvent env "keyup" event s = onKeyUp env event s ∧
   windowEvent env "mousemove" event s = reported s (onDragMove env event s) ∧
   windowEvent env "touchmove" event s = reported s (onDragMove env event s) ∧
   windowEvent env "mouseup" event s = reported s (onDragEnd env event s) ∧
   windowEvent env "touchend" event s = reported s (onDragEnd env event s) ∧
   (touchPosition event = None → is_Some (dragPosition s) →
    windowEvent env "mouseup" event s = endOfDrag false s)).
Proof.
  intros Hreach. apply reachable_listeners_ok in Hreach as Hok. split.
  - intros Htype. apply windowEvent_none. intros b Hin.
    destruct Hok as [Hown _]. apply Hown in Hin; [|done].
    apply Htype. unfold subscriptions, subscribedTypes in *.
    rewrite !elem_of_cons, elem_of_nil in *.
    destruct Hin as [H|[H|[H|[H|[H|H]]]]];
      [| | | | |by apply elem_of_nil in H];
      apply (f_equal fst) in H; simpl in H; tauto.
  - intros Hmounted.
    rewrite (windowEvent_mounted env "keyup" BoundOnKeyUp),
      (windowEvent_mounted env "mousemove" BoundOnDragMove),
      (windowEvent_mounted env "touchmove" BoundOnDragMove),
      (windowEvent_mounted env "mouseup" BoundOnDragEnd),
      (windowEvent_mounted env "touchend" BoundOnDragEnd)
      by (try done; unfold subscriptions; set_solver).
    simpl. do 5 (split; [done|]).
    intros Hpoint [start Hstart]. unfold onDragEnd, pageYOf.
    rewrite Hstart, Hpoint. change (pageY <$> None) with (@None number).
    cbv zeta. by rewrite (getDistance_undefined env s).
Qed.

Lemma window_event_table_witness :
  windowEvent exampleEnv "keydown" (escapeOn (Other 0)) exampleSheet
    = exampleSheet ∧
  windowEvent exampleEnv "mouseup" pointlessEvent grabbedSheet
    = endOfDrag false grabbedSheet.
Proof.
  split.
  - destruct (window_event_table exampleEnv "keydown" (escapeOn (Other 0))
                exampleSheet reachable_exampleSheet) as [Hother _].
    apply Hother. unfold subscribedTypes.
    rewrite !not_elem_of_cons, elem_of_nil.
    repeat split; (discriminate || tauto).
  - destruct (window_event_table exampleEnv "keydown" pointlessEvent
                grabbedSheet reachable_grabbedSheet) as [_ Hmounted].
    destruct Hmounted as (_ & _ & _ & _ & _ & Hend).
    + intros l Hl. apply (mounted_exampleSheet l Hl).
    + apply Hend; [reflexivity | by eexists].
Defined.

(* ===================================================================== *)
(** ** Drag sessions *)
(* ===================================================================== *)

Lemma dragFields_onClick event s : dragFields (onClick event s) = dragFields s.
Proof. unfold onClick. by destruct (_ && _). Qed.

Lemma dragFields_onKeyUp env event s :
  dragFields (onKeyUp env event s) = dragFields s.
Proof. unfold onKeyUp. by destruct (_ && _). Qed.

Lemma dragFields_click event s : dragFields (click event s) = dragFields s.
Proof.
  unfold click. generalize (composedPath event) as path.
  intros path. revert s.
  induction path as [|n path IH]; intros s; simpl; [done|].
  rewrite IH. destruct n; simpl; try done. apply dragFields_onClick.
Qed.

Lemma session_traces_dragFields s s' :
  dragFields s' = dragFields s → session_traces s → session_traces s'.
Proof.
  unfold dragFields, session_traces. intros [= -> -> -> _ _ -> _]. done.
Qed.

Lemma session_traces_onDragStart env event s s' :
  onDragStart env event s = Ok s' → session_traces s'.
Proof.
  unfold onDragStart. intros [= <-]. unfold session_traces. simpl.
  intros _. split; [|by split].
  apply elem_of_union. left. by apply elem_of_singleton.
Qed.

Lemma session_traces_onDragMove env event s s' :
  onDragMove env event s = Ok s' → session_traces s → session_traces s'.
Proof.
  unfold onDragMove. destruct (dragPosition s) eqn:Hstart; intros [= <-];
    [|done].
  unfold session_traces. simpl. by rewrite Hstart.
Qed.

Lemma session_traces_onDragEnd env event s s' :
  onDragEnd env event s = Ok s' → session_traces s → session_traces s'.
Proof.
  unfold onDragEnd. destruct (dragPosition s) eqn:Hstart; intros [= <-];
    [|done].
  intros _. unfold session_traces. simpl. by intros [? [=]].
Qed.

Lemma session_traces_invoke env b event s :
  session_traces s → session_traces (reported s (invoke env b event s)).
Proof.
  intros Hok. destruct (invoke env b event s) as [s'|] eqn:E; simpl; [|done].
  destruct b; simpl in E.
  - by apply (session_traces_onDragMove env event s).
  - by apply (session_traces_onDragStart env event s).
  - by apply (session_traces_onDragEnd env event s).
  - injection E as <-.
    apply (session_traces_dragFields s); [apply dragFields_onKeyUp | done].
  - by injection E as <-.
  - injection E as <-.
    apply (session_traces_dragFields s); [apply dragFields_onClick | done].
Qed.

Lemma session_traces_windowEvent env type event s :
  session_traces s → session_traces (windowEvent env type event s).
Proof.
  unfold windowEvent. generalize (windowListeners s) as ls.
  intros ls. revert s.
  induction ls as [|[type' callback] ls IH]; intros s Hok; simpl; [done|].
  apply IH. unfold windowListener. simpl.
  case_bool_decide; [|done]. destruct callback; [|done].
  by apply session_traces_invoke.
Qed.

Lemma session_traces_step env a s :
  session_traces s → session_traces (step env a s).
Proof.
  intros Hok. destruct a; simpl; try done.
  - apply (session_traces_dragFields s); [|done].
    unfold set_open. by destruct (_ || _).
  - apply (session_traces_dragFields s); [|done].
    unfold set_closeOnBackgroundClick. by destruct (Boolean v).
  - apply (session_traces_dragFields s); [|done].
    unfold set_closeOnEscapeKey. by destruct (Boolean v).
  - apply (session_traces_dragFields s); [apply dragFields_click | done].
  - unfold pointerDown. case_bool_decide; [|done].
    by apply session_traces_invoke.
  - by apply session_traces_windowEvent.
  - apply (session_traces_dragFields s); [|done].
    unfold connectedCallback, addEventListener.
    by repeat case_bool_decide.
  - apply (session_traces_dragFields s); [|done].
    unfold addEventListener. by case_bool_decide.
Qed.


(** X8. In every reachable state an active session has left its marks:
    the sheet is marked as being resized, the cursor of the handle is
    ["grabbing"] and the scale has been read; so a sheet that is not
    marked, or whose handle has another cursor, has no session.  The
    converse fails: a drag start without coordinates sets the marks and
    the cursors and stores [undefined] as the position, which is no
    session.  The cursor of the body is shared with other code and takes
    no part in this. *)
Theorem session_leaves_traces (s : SheetElement) :
  reachable s →
  (is_Some (dragPosition s) →
   ("is-resized" ∈ sheetClassList s) ∧ draggableAreaCursor s = "grabbing" ∧
   is_Some (scaleDownTo s)) ∧
  ("is-resized" ∉ sheetClassList s → dragPosition s = None) ∧
  (draggableAreaCursor s ≠ "grabbing" → dragPosition s = None) ∧
  (∀ env event,
     DraggableArea ∈ composedPath event → touchPosition event = None →
     dragPosition (pointerDown env event s) = None ∧
     ("is-resized" ∈ sheetClassList (pointerDown env event s)) ∧
     draggableAreaCursor (pointerDown env event s) = "grabbing").
Proof.
  intros Hreach.
  assert (Hok : session_traces s).
  { induction Hreach as [markup foreign | env a s _ IH].
    - by intros [? [=]].
    - by apply session_traces_step. }
  unfold session_traces in Hok.
  split; [exact Hok|]. split; [|split].
  - intros Hnot. destruct (dragPosition s) eqn:E; [|done].
    destruct Hok as [Hclass _]; [by eexists | contradiction].
  - intros Hnot. destruct (dragPosition s) eqn:E; [|done].
    destruct Hok as (_ & Hcursor & _); [by eexists | contradiction].
  - intros env event Hpath Hpoint. unfold pointerDown.
    rewrite bool_decide_eq_true_2 by done. simpl.
    unfold pageYOf. rewrite Hpoint. simpl.
    split; [done|]. split; [|done].
    apply elem_of_union. left. by apply elem_of_singleton.
Qed.

Lemma session_leaves_traces_witness :
  ("is-resized" ∈ sheetClassList grabbedSheet) ∧
  draggableAreaCursor grabbedSheet = "grabbing" ∧
  is_Some (scaleDownTo grabbedSheet).
Proof.
  apply (session_leaves_traces grabbedSheet reachable_grabbedSheet).
  by eexists.
Defined.

(* ===================================================================== *)
(** ** Moves and the whole gesture *)
(* ===================================================================== *)









(* ===================================================================== *)
(** ** The arithmetic of the distance *)
(* ===================================================================== *)

(** The operations on canonical rationals, read as operations on
    rationals. *)
Lemma this_plus (a b : Qc) : (this (a + b)%Qc == this a + this b)%Q.
Proof. apply Qred_correct. Qed.

Lemma this_mult (a b : Qc) : (this (a * b)%Qc == this a * this b)%Q.
Proof. apply Qred_correct. Qed.

Lemma this_opp (a : Qc) : (this (- a)%Qc == - this a)%Q.
Proof. apply Qred_correct. Qed.

Lemma this_minus (a b : Qc) : (this (a - b)%Qc == this a - this b)%Q.
Proof. unfold Qcminus. rewrite this_plus, this_opp. reflexivity. Qed.

Lemma this_inv (a : Qc) : (this (/ a)%Qc == / this a)%Q.
Proof. apply Qred_correct. Qed.

Lemma this_div (a b : Qc) : (this (a / b)%Qc == this a / this b)%Q.
Proof. unfold Qcdiv. rewrite this_mult, this_inv. reflexivity. Qed.

Lemma this_inject_Z (z : Z) : (this (Q2Qc (inject_Z z)) == inject_Z z)%Q.
Proof. apply Qred_correct. Qed.

Lemma Qc_ltb_ge (a b : Qc) : Qc_ltb a b = false ↔ (b <= a)%Qc.
Proof. unfold Qc_ltb, Qcle, Qle. apply Z.ltb_ge. Qed.

Lemma Qc_is_zero_spec (q : Qc) : Qc_is_zero q = true ↔ (this q == 0)%Q.
Proof.
  unfold Qc_is_zero, Qeq. simpl. rewrite Z.eqb_eq. lia.
Qed.

Lemma Qc_is_neg_spec (q : Qc) : Qc_is_neg q = true ↔ (this q < 0)%Q.
Proof.
  unfold Qc_is_neg, Qlt. simpl. rewrite Z.ltb_lt. lia.
Qed.

Lemma heightOf_pos env : clientHeight env ≠ 0%N → (0 < this (heightOf env))%Q.
Proof.
  intros Hne. unfold heightOf. rewrite this_inject_Z.
  unfold Qlt. simpl. lia.
Qed.

Lemma heightOf_not_zero env :
  clientHeight env ≠ 0%N → Qc_is_zero (heightOf env) = false.
Proof.
  intros Hne. apply heightOf_pos in Hne.
  destruct (Qc_is_zero (heightOf env)) eqn:E; [|done].
  apply Qc_is_zero_spec in E. rewrite E in Hne. discriminate.
Qed.

(** Against the threshold, the clamp makes no difference. *)
Lemma clamp_ltb_75 (x : number) :
  (Math.max (ofZ 0) (Math.min (ofZ 100) x) <? ofZ 75)%js = (x <? ofZ 75)%js.
Proof.
  destruct x as [q| | |]; try reflexivity.
  unfold Math.max, Math.min, JSNumber.max, JSNumber.min, ofZ.
  cbn [ltb].
  destruct (Qc_ltb q (Q2Qc (inject_Z 100))) eqn:Hhigh.
  - cbn [ltb]. destruct (Qc_ltb (Q2Qc (inject_Z 0)) q) eqn:Hlow; [done|].
    cbn [ltb]. apply Qc_ltb_ge in Hlow. symmetry.
    transitivity true; [|reflexivity]. apply Qc_ltb_lt.
    apply (Qcle_lt_trans _ _ _ Hlow). reflexivity.
  - cbn [ltb]. apply Qc_ltb_ge in Hhigh.
    transitivity false; [reflexivity|]. symmetry. apply Qc_ltb_ge.
    apply (Qcle_trans _ (Q2Qc (inject_Z 100))); [|done].
    unfold Qcle, Qle. simpl. lia.
Qed.

(** The threshold in the units of the pointer, in exact arithmetic. *)
Lemma threshold_in_pixels (start y H : Qc) :
  (0 < this H)%Q →
  Qc_ltb (Q2Qc (inject_Z 100)
          + (start + - y) / H * Q2Qc (inject_Z 100))%Qc (Q2Qc (inject_Z 75))
    = Qc_ltb H (Q2Qc (inject_Z 4) * (y - start))%Qc.
Proof.
  intros Hpos. apply eq_true_iff_eq. rewrite !Qc_ltb_lt. unfold Qclt.
  rewrite !this_plus, !this_mult, this_div, this_minus, !this_plus,
    !this_opp, !this_inject_Z.
  assert (Hne : ¬ (this H == 0)%Q)
    by (intros E; rewrite E in Hpos; discriminate).
  assert (Ht : ((this start + - this y) / this H * this H
                == this start + - this y)%Q) by (field; exact Hne).
  set (t := ((this start + - this y) / this H)%Q) in *.
  change (inject_Z 100) with 100%Q. change (inject_Z 75) with 75%Q.
  change (inject_Z 4) with 4%Q.
  split; intros; nra.
Qed.

Lemma distanceBeforeClamp_finite env (start y : Qc) s :
  dragPosition s = Some (Fin start) → clientHeight env ≠ 0%N →
  distanceBeforeClamp env (Fin y) s
    = Fin (Q2Qc (inject_Z 100)
           + (start + - y) / heightOf env * Q2Qc (inject_Z 100))%Qc.
Proof.
  intros Hstart Hne. unfold distanceBeforeClamp, deltaY. rewrite Hstart.
  unfold ofZ. fold (heightOf env). unfold ToNumber, default. simpl from_option.
  unfold id. cbn [sub neg add div].
  rewrite (heightOf_not_zero env Hne). reflexivity.
Qed.

Lemma leb_Fin (a b : Qc) : (Fin a <=? Fin b)%js = true ↔ (this a <= this b)%Q.
Proof.
  cbn [leb]. rewrite negb_true_iff, Qc_ltb_ge. reflexivity.
Qed.

Lemma clamp_NaN_iff (x : number) :
  Math.max (ofZ 0) (Math.min (ofZ 100) x) = NaN ↔ x = NaN.
Proof.
  destruct x as [q| | |]; try (split; [discriminate | discriminate]);
    [|done].
  unfold Math.max, Math.min, JSNumber.max, JSNumber.min, ofZ. cbn [ltb].
  destruct (Qc_ltb q _); cbn [ltb]; destruct (Qc_ltb _ _);
    split; discriminate.
Qed.

(** X11. The distance that [#getDistanceToTheBottomInPercents] returns
    is a number between 0 and 100, or [NaN]; it is [NaN] exactly when the
    unclamped value is, and never infinite.  Comparing it with 75 gives
    the same as comparing the unclamped value.  The translation drawn
    from it, 100 minus the distance, is again between 0 and 100, or
    [NaN]. *)
Theorem drag_distance_bounds (env : Env) (y : number) (s : SheetElement) :
  let d := getDistanceToTheBottomInPercents env y s in
  let translateY := (ofZ 100 - d)%js in
  (d = NaN ∨ (ofZ 0 <=? d)%js = true ∧ (d <=? ofZ 100)%js = true) ∧
  (d = NaN ↔ distanceBeforeClamp env y s = NaN) ∧
  d ≠ PosInf ∧ d ≠ NegInf ∧
  (d <? ofZ 75)%js = (distanceBeforeClamp env y s <? ofZ 75)%js ∧
  (translateY = NaN
   ∨ (ofZ 0 <=? translateY)%js = true ∧ (translateY <=? ofZ 100)%js = true).
Proof.
  intros d translateY. subst d translateY.
  rewrite getDistanceToTheBottomInPercents_clamp.
  generalize (distanceBeforeClamp env y s) as x. intros x.
  pose proof (clamp_range x) as Hrange. cbv zeta in Hrange.
  split; [exact Hrange|]. split; [apply clamp_NaN_iff|].
  split; [|split; [|split; [apply clamp_ltb_75|]]].
  - destruct Hrange as [-> | [_ Hhigh]]; [discriminate|].
    intros E. rewrite E in Hhigh. discriminate.
  - destruct Hrange as [-> | [Hlow _]]; [discriminate|].
    intros E. rewrite E in Hlow. discriminate.
  - destruct Hrange as [-> | [Hlow Hhigh]]; [by left|]. right.
    destruct (Math.max (ofZ 0) (Math.min (ofZ 100) x)) as [q| | |];
      try discriminate.
    unfold ofZ in *. cbn [sub neg add].
    apply leb_Fin in Hlow, Hhigh. rewrite this_inject_Z in Hlow, Hhigh.
    split; apply leb_Fin;
      rewrite this_plus, this_opp, !this_inject_Z;
      change (inject_Z 0) with 0%Q in *; change (inject_Z 100) with 100%Q in *;
      lra.
Qed.

(** X12. On a sheet of positive height, with finite positions: a
    release at most a quarter of the height below the start, and so a
    release at the start or above it, leaves the sheet open; a release
    at least half of the height below the start closes it.  The
    distance is then a finite number.  Where exactly between these two
    the outcome changes depends on the rounding of the division, which
    is not part of the model of numbers, and is not stated. *)
Theorem release_by_way_down (env : Env) (event : Event)
    (s : SheetElement) (start y : Qc) (point : Point) :
  dragPosition s = Some (Fin start) →
  touchPosition event = Some point → pageY point = Fin y →
  clientHeight env ≠ 0%N →
  ((Q2Qc (inject_Z 4) * (y - start) <= heightOf env)%Qc →
   onDragEnd env event s = Ok (endOfDrag false s)) ∧
  ((heightOf env <= Q2Qc (inject_Z 2) * (y - start))%Qc →
   onDragEnd env event s = Ok (endOfDrag true s)) ∧
  ((y <= start)%Qc → onDragEnd env event s = Ok (endOfDrag false s)) ∧
  (∃ q, getDistanceToTheBottomInPercents env (Fin y) s = Fin q).
Proof.
  intros Hstart Hpoint Hy Hheight.
  assert (Hpos := heightOf_pos env Hheight).
  assert (Hend : onDragEnd env event s
    = Ok (endOfDrag
            (Qc_ltb (heightOf env) (Q2Qc (inject_Z 4) * (y - start))%Qc) s)).
  { rewrite (onDragEnd_session env event s (Fin start) point) by done.
    rewrite Hy, getDistanceToTheBottomInPercents_clamp, clamp_ltb_75.
    rewrite (distanceBeforeClamp_finite env start y s) by done.
    unfold ofZ. cbn [ltb]. by rewrite threshold_in_pixels. }
  split; [|split; [|split]].
  - intros Hle. rewrite Hend. do 2 f_equal. by apply Qc_ltb_ge.
  - intros Hle. rewrite Hend. do 2 f_equal. apply Qc_ltb_lt.
    unfold Qcle, Qclt in *.
    rewrite this_mult, this_minus, this_inject_Z in *.
    change (inject_Z 4) with 4%Q. change (inject_Z 2) with 2%Q in Hle. lra.
  - intros Hle. rewrite Hend. do 2 f_equal. apply Qc_ltb_ge.
    unfold Qcle in *. rewrite this_mult, this_minus, this_inject_Z.
    change (inject_Z 4) with 4%Q. lra.
  - rewrite getDistanceToTheBottomInPercents_clamp.
    rewrite (distanceBeforeClamp_finite env start y s) by done.
    match goal with |- ∃ q, ?clamped = _ =>
      pose proof (clamp_range (Fin (Q2Qc (inject_Z 100)
        + (start + - y) / heightOf env * Q2Qc (inject_Z 100))%Qc)) as Hrange;
      cbv zeta in Hrange;
      destruct clamped as [q| | |] eqn:Hclamped
    end.
    + by exists q.
    + destruct Hrange as [E | [_ E]]; [discriminate E|].
      vm_compute in E. discriminate E.
    + destruct Hrange as [E | [E _]]; [discriminate E|].
      vm_compute in E. discriminate E.
    + apply (proj1 (clamp_NaN_iff _)) in Hclamped. discriminate Hclamped.
Qed.

Lemma release_by_way_down_witness :
  onDragEnd exampleEnv (pointerAt 400) grabbedSheet
    = Ok (endOfDrag false grabbedSheet) ∧
  onDragEnd exampleEnv (pointerAt 500) grabbedSheet
    = Ok (endOfDrag true grabbedSheet).
Proof.
  assert (Hheight : clientHeight exampleEnv ≠ 0%N) by discriminate.
  split.
  - destruct (release_by_way_down exampleEnv (pointerAt 400)
                grabbedSheet (Q2Qc (inject_Z 300)) (Q2Qc (inject_Z 400))
                {| pageY := ofZ 400 |} eq_refl eq_refl eq_refl Hheight)
      as [Hstays _].
    apply Hstays. by apply Qc_ltb_ge.
  - destruct (release_by_way_down exampleEnv (pointerAt 500)
                grabbedSheet (Q2Qc (inject_Z 300)) (Q2Qc (inject_Z 500))
                {| pageY := ofZ 500 |} eq_refl eq_refl eq_refl Hheight)
      as (_ & Hcloses & _).
    apply Hcloses. by apply Qc_ltb_ge.
Defined.

(** The distance on a sheet of height 0, by the position of the pointer
    against the start. *)
Lemma distance_on_collapsed_sheet env (start y : Qc) s :
  dragPosition s = Some (Fin start) → clientHeight env = 0%N →
  getDistanceToTheBottomInPercents env (Fin y) s
    = if Qc_is_zero (start + - y)%Qc then NaN
      else if Qc_is_neg (start + - y)%Qc then ofZ 0 else ofZ 100.
Proof.
  intros Hstart Hzero. unfold getDistanceToTheBottomInPercents.
  rewrite Hstart, Hzero. unfold ToNumber, default. simpl from_option.
  unfold id. cbn [sub neg add].
  change (ofZ (Z.of_N 0)) with (Fin (Q2Qc (inject_Z 0))).
  cbn [div]. change (Qc_is_zero (Q2Qc (inject_Z 0))) with true. cbv iota.
  destruct (Qc_is_zero (start + - y)); [reflexivity|].
  destruct (Qc_is_neg (start + - y)); reflexivity.
Qed.

(** X13. On a sheet of height 0 the division by the height is a division
    by zero.  A release below the start then closes the sheet, however
    small the way down; a release above the start does not; and a
    release exactly at the start gives the distance [NaN], which is not
    less than 75, so the sheet stays open. *)
Theorem release_on_collapsed_sheet (env : Env) (event : Event)
    (s : SheetElement) (start y : Qc) (point : Point) :
  dragPosition s = Some (Fin start) →
  touchPosition event = Some point → pageY point = Fin y →
  clientHeight env = 0%N →
  onDragEnd env event s = Ok (endOfDrag (Qc_ltb start y) s) ∧
  (getDistanceToTheBottomInPercents env (Fin y) s = NaN ↔ start = y).
Proof.
  intros Hstart Hpoint Hy Hzero.
  rewrite (onDragEnd_session env event s (Fin start) point) by done.
  rewrite Hy, (distance_on_collapsed_sheet env start y s Hstart Hzero).
  pose proof (Qc_is_zero_spec (start + - y)) as Hz.
  pose proof (Qc_is_neg_spec (start + - y)) as Hn.
  rewrite this_plus, this_opp in Hz, Hn.
  pose proof (Qc_ltb_lt start y) as Hlt. unfold Qclt in Hlt.
  pose proof (Qc_ltb_ge start y) as Hge. unfold Qcle in Hge.
  destruct (Qc_is_zero (start + - y)) eqn:Ez.
  - assert (Heq : (this start == this y)%Q)
      by (destruct Hz as [Hz _]; specialize (Hz eq_refl); lra).
    split.
    + do 2 f_equal. symmetry. apply Hge. lra.
    + split; [intros _; by apply Qc_is_canon | done].
  - assert (Hne : ¬ (this start == this y)%Q).
    { intros Heq. destruct Hz as [_ Hz]. discriminate Hz. lra. }
    destruct (Qc_is_neg (start + - y)) eqn:En.
    + split.
      * do 2 f_equal. symmetry. apply Hlt.
        destruct Hn as [Hn _]. specialize (Hn eq_refl). lra.
      * split; [discriminate|]. intros ->. by destruct Hne.
    + split.
      * do 2 f_equal. symmetry. apply Hge.
        destruct (Qlt_le_dec (this start) (this y)) as [Hlow|Hhigh]; [|done].
        destruct Hn as [_ Hn]. discriminate Hn. lra.
      * split; [discriminate|]. intros ->. by destruct Hne.
Qed.

(** A page where the sheet has no height. *)
Lemma release_on_collapsed_sheet_witness :
  onDragEnd {| clientHeight := 0; cssVariable := λ _, NaN;
               activeElement := None; contains := λ _ _, false |}
      (pointerAt 301) grabbedSheet
    = Ok (endOfDrag true grabbedSheet) ∧
  onDragEnd {| clientHeight := 0; cssVariable := λ _, NaN;
               activeElement := None; contains := λ _ _, false |}
      (pointerAt 300) grabbedSheet
    = Ok (endOfDrag false grabbedSheet).
Proof.
  split.
  - destruct (release_on_collapsed_sheet
                {| clientHeight := 0; cssVariable := λ _, NaN;
                   activeElement := None; contains := λ _ _, false |}
                (pointerAt 301) grabbedSheet
                (Q2Qc (inject_Z 300)) (Q2Qc (inject_Z 301))
                {| pageY := ofZ 301 |} eq_refl eq_refl eq_refl eq_refl)
      as [Hend _].
    exact Hend.
  - destruct (release_on_collapsed_sheet
                {| clientHeight := 0; cssVariable := λ _, NaN;
                   activeElement := None; contains := λ _ _, false |}
                (pointerAt 300) grabbedSheet
                (Q2Qc (inject_Z 300)) (Q2Qc (inject_Z 300))
                {| pageY := ofZ 300 |} eq_refl eq_refl eq_refl eq_refl)
      as [Hend _].
    exact Hend.
Defined.

(* ===================================================================== *)
(** ** The attributes under [show()] and [close()] *)
(* ===================================================================== *)

(** X14. [show()] and [close()] touch the [open] attribute only: every
    other attribute keeps its value.  [show()] gives [open] the value
    ["true"], and showing twice leaves the attributes as showing once
    does; closing a sheet that was opened from the closed state gives
    back the attributes it had, and closing a closed sheet leaves them as
    they are. *)
Theorem show_close_attributes (s : SheetElement) (name : string) :
  name ≠ "open" →
  attributes (show s) !! name = attributes s !! name ∧
  attributes (close s) !! name = attributes s !! name ∧
  attributes (show s) !! "open" = Some "true" ∧
  attributes (close s) !! "open" = None ∧
  attributes (show (show s)) = attributes (show s) ∧
  attributes (close (show s)) = attributes (close s) ∧
  (get_open s = false →
   attributes (close s) = attributes s ∧
   attributes (close (show s)) = attributes s).
Proof.
  intros Hname. simpl.
  rewrite lookup_insert_ne, lookup_delete_ne by done.
  rewrite lookup_insert_eq, lookup_delete_eq.
  rewrite insert_insert_eq, delete_insert_eq.
  do 6 (split; [done|]).
  unfold get_open, hasAttribute. intros Hclosed.
  apply bool_decide_eq_false in Hclosed.
  assert (Hnone : attributes s !! "open" = None).
  { destruct (attributes s !! "open") eqn:E; [|done].
    destruct Hclosed. by eexists. }
  by rewrite delete_id.
Qed.

Lemma show_close_attributes_witness :
  attributes (show (constructor {["id" := "menu"]} [])) !! "id" = Some "menu" ∧
  attributes (close (show (constructor {["id" := "menu"]} [])))
    = attributes (constructor {["id" := "menu"]} []).
Proof.
  assert (Hname : "id" ≠ "open") by discriminate.
  destruct (show_close_attributes (constructor {["id" := "menu"]} []) "id" Hname)
    as (Hshow & _ & _ & _ & _ & _ & Hback).
  split.
  - rewrite Hshow. reflexivity.
  - apply Hback. reflexivity.
Defined.
